(** * cluster-api-provider-gcp: the machine scope's instance descriptor

    A shallow embedding of [cloud/scope/machine.go]: the zone selection, the
    subnet string grammar (owning project, subnetwork path, alias IP ranges),
    the disk, network interface and instance builders, and the properties
    the specification states about them. *)

From Stdlib Require Import String Ascii List Bool Arith ZArith Lia.
From stdpp Require Import base option list sorting strings gmap.

Local Open Scope string_scope.
Local Open Scope list_scope.

(** ** Go's [strings] package, as far as [machine.go] uses it

    A Go string is a sequence of bytes; [string] with one [ascii] per byte
    has the same shape. *)
Module strings.

  (** [strings.HasPrefix(s, prefix)]. *)
Fixpoint HasPrefix (s prefix : string) {struct prefix} : bool :=
    match prefix, s with
    | EmptyString, _ => true
    | String _ _, EmptyString => false
    | String p prefix', String c s' => Ascii.eqb c p && HasPrefix s' prefix'
    end.

  (** [s[n:]], for [n <= len(s)]. *)
Fixpoint drop (n : nat) (s : string) : string :=
    match n, s with
    | O, _ => s
    | S _, EmptyString => EmptyString
    | S n', String _ s' => drop n' s'
    end.

  (** [strings.TrimPrefix(s, prefix)]. *)
Definition TrimPrefix (s prefix : string) : string :=
    if HasPrefix s prefix then drop (String.length prefix) s else s.

  (** [strings.HasSuffix(s, suffix)]:
      [len(s) >= len(suffix) && s[len(s)-len(suffix):] == suffix]. *)
Definition HasSuffix (s suffix : string) : bool :=
    (String.length suffix <=? String.length s)%nat
    && String.eqb (drop (String.length s - String.length suffix) s) suffix.

  (** [strings.Contains(s, substr)]: some suffix of [s] starts with
      [substr]. *)
Fixpoint Contains (s substr : string) : bool :=
    HasPrefix s substr
    || match s with
       | EmptyString => false
       | String _ s' => Contains s' substr
       end.

  (** The scan of [strings.Count]: after a match the scan resumes behind the
      matched bytes, so [skip] counts the bytes of the last match that are
      still to be stepped over. *)
Fixpoint count_from (skip : nat) (s substr : string) : nat :=
    match s with
    | EmptyString => O
    | String _ s' =>
        match skip with
        | S k => count_from k s' substr
        | O => if HasPrefix s substr
               then S (count_from (String.length substr - 1) s' substr)
               else count_from O s' substr
        end
    end.

  (** [strings.Count(s, substr)] for a non-empty [substr]: the number of
      non-overlapping instances of [substr] in [s]. *)
Definition Count (s substr : string) : nat := count_from O s substr.

  (** [strings.Split(s, sep)] for a separator of one byte, which is what
      every call in [machine.go] passes: the pieces of [s] between the
      separators, [Count(s, sep) + 1] of them. *)
Fixpoint Split (s : string) (sep : ascii) : list string :=
    match s with
    | EmptyString => [EmptyString]
    | String c s' =>
        if Ascii.eqb c sep then EmptyString :: Split s' sep
        else match Split s' sep with
             | piece :: pieces => String c piece :: pieces
             | [] => [String c EmptyString]
             end
    end.

  (** [strings.Join(elems, sep)]. *)
Fixpoint Join (elems : list string) (sep : string) : string :=
    match elems with
    | [] => EmptyString
    | [e] => e
    | e :: elems' => e +:+ sep +:+ Join elems' sep
    end.

End strings.

Arguments strings.Split s%_string sep%_char.

(** ** Go's [path] package: [Clean] and [Join] *)
Module path.

  (** The output buffer of [path.Clean], element by element: [out] holds the
      elements written so far, last one first, and [dotdot] how many of the
      first ones are the [..] elements a path that is not rooted may begin
      with, which no later [..] may remove. *)
Record lazybuf := { out : list string; dotdot : nat }.

  (** One round of [Clean]'s loop, for the path element [e]: an empty
      element and [.] are dropped; [..] removes the last element when there
      is one behind [dotdot], is dropped in a rooted path, and is written in a
      path that is not rooted; any other element is written. *)
Definition step (rooted : bool) (b : lazybuf) (e : string) : lazybuf :=
    if String.eqb e "" then b
    else if String.eqb e "." then b
    else if String.eqb e ".." then
      if (dotdot b <? length (out b))%nat
      then {| out := tail (out b); dotdot := dotdot b |}
      else if rooted then b
      else {| out := ".." :: out b; dotdot := S (length (out b)) |}
    else {| out := e :: out b; dotdot := dotdot b |}.

  (** [path.Clean(path)]: the shortest path name equivalent to [path] by
      purely lexical processing. *)
Definition Clean (path : string) : string :=
    if String.eqb path "" then "."
    else
      let rooted := strings.HasPrefix path "/" in
      let b := fold_left (step rooted) (strings.Split path "/")
                 {| out := []; dotdot := 0 |} in
      if rooted then "/" +:+ strings.Join (rev (out b)) "/"
      else match out b with
           | [] => "."
           | _ => strings.Join (rev (out b)) "/"
           end.

  (** The buffer [path.Join] fills: an element is appended, behind a slash
      when the buffer is not empty, unless it is empty and nothing has been
      written yet. *)
Fixpoint join_buf (buf : string) (elem : list string) : string :=
    match elem with
    | [] => buf
    | e :: elem' =>
        if negb (String.eqb buf "") || negb (String.eqb e "")
        then join_buf ((if String.eqb buf "" then buf else buf +:+ "/") +:+ e) elem'
        else join_buf buf elem'
    end.

  (** [path.Join(elem...)]. *)
Definition Join (elem : list string) : string :=
    let size := fold_left (fun n e => (n + String.length e)%nat) elem O in
    if (size =? 0)%nat then ""
    else Clean (join_buf "" elem).

End path.

(** ** The API types the machine scope reads and builds

    Only the fields [machine.go] touches.  A Go pointer or a nilable
    reference is an [option]; a Go map with string keys is a [gmap]. *)

(** [google.golang.org/api/compute/v1]: the request the scope builds. *)
Module compute.

Module AliasIpRange.
Record t := mk { SubnetworkRangeName : string; IpCidrRange : string }.
End AliasIpRange.

Module AccessConfig.
Record t := mk { Type_ : string; Name : string }.
End AccessConfig.

Module NetworkInterface.
Record t := mk {
      Network : string;
      Subnetwork : string;
      AccessConfigs : list AccessConfig.t;
      AliasIpRanges : list AliasIpRange.t }.
Definition with_Subnetwork (v : string) (n : t) : t :=
      mk (Network n) v (AccessConfigs n) (AliasIpRanges n).
Definition with_AccessConfigs (v : list AccessConfig.t) (n : t) : t :=
      mk (Network n) (Subnetwork n) v (AliasIpRanges n).
Definition with_AliasIpRanges (v : list AliasIpRange.t) (n : t) : t :=
      mk (Network n) (Subnetwork n) (AccessConfigs n) v.
End NetworkInterface.

Module AttachedDiskInitializeParams.
Record t := mk { DiskSizeGb : Z; DiskType : string; SourceImage : string }.
Definition with_DiskSizeGb (v : Z) (p : t) : t :=
      mk v (DiskType p) (SourceImage p).
End AttachedDiskInitializeParams.

Module AttachedDisk.
Record t := mk {
      AutoDelete : bool;
      Boot : bool;
      InitializeParams : AttachedDiskInitializeParams.t;
      Type_ : string;
      Interface : string }.
Definition with_Type (v : string) (d : t) : t :=
      mk (AutoDelete d) (Boot d) (InitializeParams d) v (Interface d).
Definition with_Interface (v : string) (d : t) : t :=
      mk (AutoDelete d) (Boot d) (InitializeParams d) (Type_ d) v.
Definition with_InitializeParams (v : AttachedDiskInitializeParams.t) (d : t) : t :=
      mk (AutoDelete d) (Boot d) v (Type_ d) (Interface d).
End AttachedDisk.

Module ServiceAccount.
Record t := mk { Email : string; Scopes : list string }.
End ServiceAccount.

Module MetadataItems.
Record t := mk { Key : string; Value : option string }.
End MetadataItems.

Module Metadata.
Record t := mk { Items : list MetadataItems.t }.
End Metadata.

Module Tags.
Record t := mk { Items : list string }.
End Tags.

Module Scheduling.
Record t := mk { Preemptible : bool; OnHostMaintenance : string }.
Definition with_OnHostMaintenance (v : string) (s : t) : t :=
      mk (Preemptible s) v.
End Scheduling.

Module ShieldedInstanceConfig.
Record t := mk {
      EnableSecureBoot : bool;
      EnableVtpm : bool;
      EnableIntegrityMonitoring : bool }.
Definition with_EnableSecureBoot (v : bool) (c : t) : t :=
      mk v (EnableVtpm c) (EnableIntegrityMonitoring c).
Definition with_EnableVtpm (v : bool) (c : t) : t :=
      mk (EnableSecureBoot c) v (EnableIntegrityMonitoring c).
Definition with_EnableIntegrityMonitoring (v : bool) (c : t) : t :=
      mk (EnableSecureBoot c) (EnableVtpm c) v.
End ShieldedInstanceConfig.

Module ConfidentialInstanceConfig.
Record t := mk { EnableConfidentialCompute : bool }.
End ConfidentialInstanceConfig.

Module Instance.
Record t := mk {
      Name : string;
      Zone : string;
      MachineType : string;
      Tags : Tags.t;
      Labels : gmap string string;
      Scheduling : Scheduling.t;
      CanIpForward : bool;
      ShieldedInstanceConfig : option ShieldedInstanceConfig.t;
      ConfidentialInstanceConfig : option ConfidentialInstanceConfig.t;
      Disks : list AttachedDisk.t;
      Metadata : option Metadata.t;
      ServiceAccounts : list ServiceAccount.t;
      NetworkInterfaces : list NetworkInterface.t }.
Definition with_Scheduling (v : Scheduling.t) (i : t) : t :=
      mk (Name i) (Zone i) (MachineType i) (Tags i) (Labels i) v
         (CanIpForward i) (ShieldedInstanceConfig i)
         (ConfidentialInstanceConfig i) (Disks i) (Metadata i)
         (ServiceAccounts i) (NetworkInterfaces i).
Definition with_CanIpForward (v : bool) (i : t) : t :=
      mk (Name i) (Zone i) (MachineType i) (Tags i) (Labels i) (Scheduling i)
         v (ShieldedInstanceConfig i)
         (ConfidentialInstanceConfig i) (Disks i) (Metadata i)
         (ServiceAccounts i) (NetworkInterfaces i).
Definition with_ShieldedInstanceConfig
        (v : option ShieldedInstanceConfig.t) (i : t) : t :=
      mk (Name i) (Zone i) (MachineType i) (Tags i) (Labels i) (Scheduling i)
         (CanIpForward i) v
         (ConfidentialInstanceConfig i) (Disks i) (Metadata i)
         (ServiceAccounts i) (NetworkInterfaces i).
Definition with_ConfidentialInstanceConfig
        (v : option ConfidentialInstanceConfig.t) (i : t) : t :=
      mk (Name i) (Zone i) (MachineType i) (Tags i) (Labels i) (Scheduling i)
         (CanIpForward i) (ShieldedInstanceConfig i)
         v (Disks i) (Metadata i)
         (ServiceAccounts i) (NetworkInterfaces i).
Definition with_Disks (v : list AttachedDisk.t) (i : t) : t :=
      mk (Name i) (Zone i) (MachineType i) (Tags i) (Labels i) (Scheduling i)
         (CanIpForward i) (ShieldedInstanceConfig i)
         (ConfidentialInstanceConfig i) v (Metadata i)
         (ServiceAccounts i) (NetworkInterfaces i).
Definition with_Metadata (v : option Metadata.t) (i : t) : t :=
      mk (Name i) (Zone i) (MachineType i) (Tags i) (Labels i) (Scheduling i)
         (CanIpForward i) (ShieldedInstanceConfig i)
         (ConfidentialInstanceConfig i) (Disks i) v
         (ServiceAccounts i) (NetworkInterfaces i).
Definition with_ServiceAccounts (v : list ServiceAccount.t) (i : t) : t :=
      mk (Name i) (Zone i) (MachineType i) (Tags i) (Labels i) (Scheduling i)
         (CanIpForward i) (ShieldedInstanceConfig i)
         (ConfidentialInstanceConfig i) (Disks i) (Metadata i)
         v (NetworkInterfaces i).
Definition with_NetworkInterfaces (v : list NetworkInterface.t) (i : t) : t :=
      mk (Name i) (Zone i) (MachineType i) (Tags i) (Labels i) (Scheduling i)
         (CanIpForward i) (ShieldedInstanceConfig i)
         (ConfidentialInstanceConfig i) (Disks i) (Metadata i)
         (ServiceAccounts i) v.
End Instance.

End compute.

(** [sigs.k8s.io/cluster-api/api/v1beta1]: the machine and the failure
    domains of its cluster. *)
Module clusterv1.

Module FailureDomainSpec.
Record t := mk { ControlPlane : bool; Attributes : gmap string string }.
End FailureDomainSpec.

Module Machine.
Record t := mk {
      Labels : gmap string string;
      Version : option string;
      FailureDomain : option string }.
End Machine.

End clusterv1.

(** [api/v1beta1]: the machine specification. *)
Module infrav1.

Module AttachedDiskSpec.
Record t := mk { DeviceType : option string; Size : option Z }.
End AttachedDiskSpec.

Module MetadataItem.
Record t := mk { Key : string; Value : option string }.
End MetadataItem.

Module ServiceAccount.
Record t := mk { Email : string; Scopes : list string }.
End ServiceAccount.

Module GCPShieldedInstanceConfig.
Record t := mk {
      SecureBoot : string;
      VirtualizedTrustedPlatformModule : string;
      IntegrityMonitoring : string }.
End GCPShieldedInstanceConfig.

Module GCPMachineSpec.
Record t := mk {
      InstanceType : string;
      Subnet : option string;
      ImageFamily : option string;
      Image : option string;
      AdditionalLabels : gmap string string;
      AdditionalMetadata : list MetadataItem.t;
      PublicIP : option bool;
      AdditionalNetworkTags : list string;
      RootDeviceSize : Z;
      RootDeviceType : option string;
      AdditionalDisks : list AttachedDiskSpec.t;
      ServiceAccount : option ServiceAccount.t;
      Preemptible : bool;
      IPForwarding : option string;
      ShieldedInstanceConfig : option GCPShieldedInstanceConfig.t;
      OnHostMaintenance : option string;
      ConfidentialCompute : option string }.
End GCPMachineSpec.

Module GCPMachine.
Record t := mk { Name : string; Spec : GCPMachineSpec.t }.
End GCPMachine.

Module BuildParams.
Record t := mk {
      ClusterName : string;
      Lifecycle : string;
      Role : option string;
      Additional : gmap string string }.
End BuildParams.

End infrav1.

(** [cloud.ClusterGetter], the interface the scope reads the cluster through,
    as the values its methods return during one call.  [FailureDomains] is a
    Go map; its entries are listed in the order a [range] over it yields
    them, which Go leaves unspecified and changes from one loop to the
    next. *)
Module ClusterGetter.
Record t := mk {
    Project : string;
    Region : string;
    NetworkName : string;
    Name : string;
    FailureDomains : list (string * clusterv1.FailureDomainSpec.t);
    AdditionalLabels : gmap string string }.
Definition with_FailureDomains
      (v : list (string * clusterv1.FailureDomainSpec.t)) (c : t) : t :=
    mk (Project c) (Region c) (NetworkName c) (Name c) v (AdditionalLabels c).
End ClusterGetter.

(** [MachineScope]: a machine and its cluster. *)
Module MachineScope.
Record t := mk {
    ClusterGetter : ClusterGetter.t;
    Machine : clusterv1.Machine.t;
    GCPMachine : infrav1.GCPMachine.t }.
End MachineScope.

(** What [machine.go] imports and this development does not contain: the
    constants and the label helpers of [api/v1beta1], and functions of
    [compute], [semver], [strings] and [cluster-api/util].  Every definition
    and theorem below that uses one of them holds for whatever it is. *)
Class Imports := {
  PdStandardDiskType : string;
  LocalSsdDiskType : string;
  HostMaintenancePolicyMigrate : string;
  HostMaintenancePolicyTerminate : string;
  IPForwardingDisabled : string;
  SecureBootPolicyEnabled : string;
  VirtualizedTrustedPlatformModulePolicyDisabled : string;
  IntegrityMonitoringPolicyDisabled : string;
  ConfidentialComputePolicyEnabled : string;
  ResourceLifecycleOwned : string;
  Build : infrav1.BuildParams.t -> gmap string string;
  AddLabels : gmap string string -> gmap string string -> gmap string string;
  CloudPlatformScope : string;
  MajorMinor : string -> string;
  ToUpper : string -> string;
  IsControlPlaneMachine : clusterv1.Machine.t -> bool }.

(** ** Effects

    The builders write debug lines to standard output and to the logger
    they are handed, and a nil dereference panics.  A computation yields
    what it has written and, unless it panicked, its value. *)
Inductive Event :=
| Printf (text : string)
| LogError (err msg key value : string).

Definition M (A : Type) : Type := (list Event * option A)%type.

Definition ret {A} (a : A) : M A := ([], Some a).

Definition bind {A B} (m : M A) (k : A -> M B) : M B :=
  match m with
  | (w, None) => (w, None)
  | (w, Some a) => let '(w', r) := k a in (w ++ w', r)
  end.

Definition emit (e : Event) : M unit := ([e], Some tt).

Definition panic {A} : M A := ([], None).

(** [*p] for a pointer [p]: the value, or a panic when [p] is nil. *)
Definition deref {A} (p : option A) : M A :=
  match p with
  | Some a => ret a
  | None => panic
  end.

(** The value a computation returned, if it returned. *)
Definition returned {A} (m : M A) : option A := snd m.

(** What a computation wrote. *)
Definition written {A} (m : M A) : list Event := fst m.

Notation "x <- m ;; k" := (bind m (fun x => k))
  (at level 20, m at level 99, k at level 200, only parsing).

(** ** Errors of the alias range parser, and the messages [fmt.Errorf]
    gives them *)
Inductive error :=
| ErrMultipleAliasRanges (subnet : string)
| ErrInvalidAliasRange (r : string)
| ErrUnableToParse (subnet : string).

Definition Error (e : error) : string :=
  match e with
  | ErrMultipleAliasRanges subnet =>
      "invalid subnet spec (contains multiple alias range definitions): '"
      +:+ subnet +:+ "'"
  | ErrInvalidAliasRange r =>
      "invalid IP alias range definition: '" +:+ r +:+ "'"
  | ErrUnableToParse subnet =>
      "unable to parse alias IP ranges from subnet spec: '" +:+ subnet +:+ "'"
  end.

(** [sort.Strings]: the strings in increasing byte-wise order.  Whatever the
    algorithm, the result is the one sorted rearrangement of the slice. *)
Module sort.
Definition Strings (x : list string) : list string := merge_sort String.le x.
End sort.

(** [pointer.Int64Deref(ptr, def)]. *)
Definition Int64Deref (ptr : option Z) (def : Z) : Z :=
  match ptr with
  | Some v => v
  | None => def
  end.

(** [strings.ReplaceAll(s, old, new)] for an [old] of one byte. *)
Fixpoint ReplaceAll (s : string) (old : ascii) (new : string) : string :=
  match s with
  | EmptyString => EmptyString
  | String c s' =>
      if Ascii.eqb c old then new +:+ ReplaceAll s' old new
      else String c (ReplaceAll s' old new)
  end.

Arguments ReplaceAll s%_string old%_char new%_string.

(** The line feed a format string ends in. *)
Definition LF : string := String (ascii_of_nat 10) EmptyString.

Import MachineScope infrav1.GCPMachine infrav1.GCPMachineSpec.

(** ** The machine scope: [cloud/scope/machine.go] *)

(** [Zone] returns the failure domain of the machine: the one its
    specification names or, without one, the first of the cluster's failure
    domain names in sorted order. *)
Definition Zone (m : MachineScope.t) : string :=
  match clusterv1.Machine.FailureDomain (Machine m) with
  | None =>
      let fd := ClusterGetter.FailureDomains (ClusterGetter m) in
      if (length fd =? 0)%nat then ""
      else
        let zones := fold_left (fun zones zone => zones ++ [zone]) (map fst fd) [] in
        let zones := sort.Strings zones in
        match zones with
        | zone :: _ => zone
        | [] => ""
        end
  | Some failureDomain => failureDomain
  end.

(** [Project] returns the project of the machine's cluster. *)
Definition Project (m : MachineScope.t) : string :=
  ClusterGetter.Project (ClusterGetter m).

(** [Name] returns the GCPMachine name. *)
Definition Name (m : MachineScope.t) : string :=
  infrav1.GCPMachine.Name (GCPMachine m).

(** [subnetHasSlashes]: the subnet is set and contains a slash. *)
Definition subnetHasSlashes (m : MachineScope.t) : bool :=
  match Subnet (Spec (GCPMachine m)) with
  | None => false
  | Some subnet => if strings.Contains subnet "/" then true else false
  end.

(** [getProjectFromSubnet] returns the project name, if set in the subnet;
    nil otherwise. *)
Definition getProjectFromSubnet (m : MachineScope.t) : option string :=
  match Subnet (Spec (GCPMachine m)) with
  | None => None
  | Some subnet =>
      if subnetHasSlashes m then
        match strings.Split subnet "/" with
        | s0 :: s1 :: _ =>
            if String.eqb s0 "projects" && (0 <? String.length s1)%nat
            then Some s1
            else None
        | _ => None
        end
      else None
  end.

(** [getNetworkInterfacePath]: the network of the cluster, in the project of
    the subnet when the subnet names one that is not the cluster's. *)
Definition getNetworkInterfacePath (m : MachineScope.t) : string :=
  let defaultPath :=
    path.Join ["projects"; ClusterGetter.Project (ClusterGetter m);
               "global"; "networks";
               ClusterGetter.NetworkName (ClusterGetter m)] in
  match getProjectFromSubnet m with
  | None => defaultPath
  | Some subnetProject =>
      if negb (String.eqb (ClusterGetter.Project (ClusterGetter m)) subnetProject)
      then path.Join ["projects"; subnetProject; "global"; "networks";
                      ClusterGetter.NetworkName (ClusterGetter m)]
      else defaultPath
  end.

(** The element [a[0]] of a slice. *)
Definition index0 (a : list string) : M string :=
  match a with
  | x :: _ => ret x
  | [] => panic
  end.

(** [getSubnetworkPath]: the subnet of the specification when it names a
    project, the subnet in the cluster's region otherwise, without the alias
    ranges.  It dereferences the subnet unchecked. *)
Definition getSubnetworkPath (m : MachineScope.t) : M string :=
  subnet <- deref (Subnet (Spec (GCPMachine m))) ;;
  let defaultPath :=
    path.Join ["regions"; ClusterGetter.Region (ClusterGetter m);
               "subnetworks"; subnet] in
  let defaultPath :=
    match getProjectFromSubnet m with
    | Some _ => subnet
    | None => defaultPath
    end in
  index0 (strings.Split defaultPath ",").

(** The loop of [getInstanceAliasIpRanges] over the entries of one alias
    definition: an entry is [cidr] or [name:cidr]; one with more colons is an
    error, which discards the ranges collected so far. *)
Fixpoint aliasRanges_loop (aliasRangesSlice : list string)
    (subnetSecondaryRanges : list compute.AliasIpRange.t)
    : list compute.AliasIpRange.t * option error :=
  match aliasRangesSlice with
  | [] => (subnetSecondaryRanges, None)
  | r :: aliasRangesSlice' =>
      let aliasRangeSlice := strings.Split r ":" in
      if (2 <? length aliasRangeSlice)%nat
      then ([], Some (ErrInvalidAliasRange r))
      else
        let '(aliasRangeName, aliasRangeCidr) :=
          if (length aliasRangeSlice =? 1)%nat
          then ("", nth 0 aliasRangeSlice "")
          else (nth 0 aliasRangeSlice "", nth 1 aliasRangeSlice "") in
        aliasRanges_loop aliasRangesSlice'
          (subnetSecondaryRanges
           ++ [compute.AliasIpRange.mk aliasRangeName aliasRangeCidr])
  end.

(** The loop of [getInstanceAliasIpRanges] over the comma separated pieces
    of the subnet: the first piece that starts with [aliases=] is parsed, and
    the loop ends there. *)
Fixpoint subnetSlice_loop (subnetSlice : list string)
    (subnetSecondaryRanges : list compute.AliasIpRange.t)
    : list compute.AliasIpRange.t * option error :=
  match subnetSlice with
  | [] => (subnetSecondaryRanges, None)
  | s :: subnetSlice' =>
      if strings.HasPrefix s "aliases="
      then aliasRanges_loop
             (strings.Split (strings.TrimPrefix s "aliases=") ";")
             subnetSecondaryRanges
      else subnetSlice_loop subnetSlice' subnetSecondaryRanges
  end.

(** [getInstanceAliasIpRanges] returns the alias IP ranges of the network
    interface, and an error when the subnet defines them badly. *)
Definition getInstanceAliasIpRanges (m : MachineScope.t)
    : list compute.AliasIpRange.t * option error :=
  let subnetSecondaryRanges := [] in
  match Subnet (Spec (GCPMachine m)) with
  | None => (subnetSecondaryRanges, None)
  | Some subnet =>
      if negb (strings.Contains subnet ",aliases=")
      then (subnetSecondaryRanges, None)
      else if (1 <? strings.Count subnet ",aliases=")%nat
      then ([], Some (ErrMultipleAliasRanges subnet))
      else
        match subnetSlice_loop (strings.Split subnet ",") subnetSecondaryRanges with
        | (_, Some err) => ([], Some err)
        | (subnetSecondaryRanges, None) =>
            if (length subnetSecondaryRanges =? 0)%nat
            then ([], Some (ErrUnableToParse subnet))
            else (subnetSecondaryRanges, None)
        end
  end.

(** [InstanceNetworkInterfaceSpec] returns the network interface, or nil
    when the alias ranges of the subnet do not parse. *)
Definition InstanceNetworkInterfaceSpec (m : MachineScope.t)
    : M (option compute.NetworkInterface.t) :=
  let networkInterface :=
    compute.NetworkInterface.mk (getNetworkInterfacePath m) "" [] [] in
  _ <- emit (Printf ("#### InstanceNetworkInterfaceSpec networkInterface: "
                     +:+ getNetworkInterfacePath m +:+ LF)) ;;
  let networkInterface :=
    match PublicIP (Spec (GCPMachine m)) with
    | Some true =>
        compute.NetworkInterface.with_AccessConfigs
          [compute.AccessConfig.mk "ONE_TO_ONE_NAT" "External NAT"]
          networkInterface
    | _ => networkInterface
    end in
  match Subnet (Spec (GCPMachine m)) with
  | Some _ =>
      subnetwork <- getSubnetworkPath m ;;
      let networkInterface :=
        compute.NetworkInterface.with_Subnetwork subnetwork networkInterface in
      _ <- emit (Printf ("#### InstanceNetworkInterfaceSpec subnet is set: "
                         +:+ compute.NetworkInterface.Subnetwork networkInterface
                         +:+ LF)) ;;
      match getInstanceAliasIpRanges m with
      | (aliasIpRanges, None) =>
          ret (Some (compute.NetworkInterface.with_AliasIpRanges
                       aliasIpRanges networkInterface))
      | (_, Some _) => ret None
      end
  | None => ret (Some networkInterface)
  end.

(** [InstanceAdditionalMetadataSpec] returns the additional metadata. *)
Definition InstanceAdditionalMetadataSpec (m : MachineScope.t)
    : compute.Metadata.t :=
  compute.Metadata.mk
    (fold_left
       (fun items additionalMetadata =>
          items ++ [compute.MetadataItems.mk
                      (infrav1.MetadataItem.Key additionalMetadata)
                      (infrav1.MetadataItem.Value additionalMetadata)])
       (AdditionalMetadata (Spec (GCPMachine m))) []).

Section Scope.

Context `{Imports}.

(** [Role] returns the machine role from the labels. *)
Definition Role (m : MachineScope.t) : string :=
  if IsControlPlaneMachine (Machine m) then "control-plane" else "node".

(** [InstanceImageSpec] returns the boot disk. *)
Definition InstanceImageSpec (m : MachineScope.t) : compute.AttachedDisk.t :=
  let version :=
    match clusterv1.Machine.Version (Machine m) with
    | Some v => v
    | None => ""
    end in
  let image :=
    "capi-ubuntu-1804-k8s-" +:+ ReplaceAll (MajorMinor version) "." "-" in
  let sourceImage :=
    path.Join ["projects"; ClusterGetter.Project (ClusterGetter m);
               "global"; "images"; "family"; image] in
  let sourceImage :=
    match Image (Spec (GCPMachine m)) with
    | Some i => i
    | None =>
        match ImageFamily (Spec (GCPMachine m)) with
        | Some f => f
        | None => sourceImage
        end
    end in
  let diskType :=
    match RootDeviceType (Spec (GCPMachine m)) with
    | Some t => t
    | None => PdStandardDiskType
    end in
  compute.AttachedDisk.mk true true
    (compute.AttachedDiskInitializeParams.mk
       (RootDeviceSize (Spec (GCPMachine m)))
       (path.Join ["zones"; Zone m; "diskTypes"; diskType])
       sourceImage)
    "" "".

(** One additional disk: the requested size or 30 GB; a local SSD always is
    a 375 GB scratch disk behind the NVME interface.  The device type is
    dereferenced unchecked. *)
Definition additionalDisk_of (m : MachineScope.t)
    (disk : infrav1.AttachedDiskSpec.t) : M compute.AttachedDisk.t :=
  deviceType <- deref (infrav1.AttachedDiskSpec.DeviceType disk) ;;
  let additionalDisk :=
    compute.AttachedDisk.mk true false
      (compute.AttachedDiskInitializeParams.mk
         (Int64Deref (infrav1.AttachedDiskSpec.Size disk) 30)
         (path.Join ["zones"; Zone m; "diskTypes"; deviceType])
         "")
      "" "" in
  if strings.HasSuffix
       (compute.AttachedDiskInitializeParams.DiskType
          (compute.AttachedDisk.InitializeParams additionalDisk))
       LocalSsdDiskType
  then
    let additionalDisk := compute.AttachedDisk.with_Type "SCRATCH" additionalDisk in
    let additionalDisk :=
      compute.AttachedDisk.with_InitializeParams
        (compute.AttachedDiskInitializeParams.with_DiskSizeGb 375
           (compute.AttachedDisk.InitializeParams additionalDisk))
        additionalDisk in
    ret (compute.AttachedDisk.with_Interface "NVME" additionalDisk)
  else ret additionalDisk.

(** The loop of [InstanceAdditionalDiskSpec] over the disks of the
    specification. *)
Fixpoint additionalDisks_loop (m : MachineScope.t)
    (disks : list infrav1.AttachedDiskSpec.t)
    (additionalDisks : list compute.AttachedDisk.t)
    : M (list compute.AttachedDisk.t) :=
  match disks with
  | [] => ret additionalDisks
  | disk :: disks' =>
      additionalDisk <- additionalDisk_of m disk ;;
      additionalDisks_loop m disks' (additionalDisks ++ [additionalDisk])
  end.

(** [InstanceAdditionalDiskSpec] returns the additional disks. *)
Definition InstanceAdditionalDiskSpec (m : MachineScope.t)
    : M (list compute.AttachedDisk.t) :=
  additionalDisks_loop m (AdditionalDisks (Spec (GCPMachine m))) [].

(** [InstanceServiceAccountsSpec] returns the service account. *)
Definition InstanceServiceAccountsSpec (m : MachineScope.t)
    : compute.ServiceAccount.t :=
  let serviceAccount := compute.ServiceAccount.mk "default" [CloudPlatformScope] in
  match ServiceAccount (Spec (GCPMachine m)) with
  | Some sa =>
      compute.ServiceAccount.mk
        (infrav1.ServiceAccount.Email sa) (infrav1.ServiceAccount.Scopes sa)
  | None => serviceAccount
  end.

(** The instance as the composite literal at the head of [InstanceSpec]
    builds it: name, zone, machine type, tags, labels and scheduling; every
    other field has its zero value. *)
Definition instance_literal (m : MachineScope.t) : compute.Instance.t :=
  compute.Instance.mk
    (Name m)
    (Zone m)
    (path.Join ["zones"; Zone m; "machineTypes";
                InstanceType (Spec (GCPMachine m))])
    (compute.Tags.mk
       (AdditionalNetworkTags (Spec (GCPMachine m))
        ++ [ClusterGetter.Name (ClusterGetter m) +:+ "-" +:+ Role m;
            ClusterGetter.Name (ClusterGetter m)]))
    (Build
       (infrav1.BuildParams.mk
          (ClusterGetter.Name (ClusterGetter m))
          ResourceLifecycleOwned
          (Some (Role m))
          (AddLabels (ClusterGetter.AdditionalLabels (ClusterGetter m))
                     (AdditionalLabels (Spec (GCPMachine m))))))
    (compute.Scheduling.mk (Preemptible (Spec (GCPMachine m))) "")
    false None None [] None [] [].

(** The shielded instance configuration: secure boot off, vTPM and integrity
    monitoring on, each changed when the specification says so. *)
Definition shieldedInstanceConfig_of (c : infrav1.GCPShieldedInstanceConfig.t)
    : compute.ShieldedInstanceConfig.t :=
  let config := compute.ShieldedInstanceConfig.mk false true true in
  let config :=
    if String.eqb (infrav1.GCPShieldedInstanceConfig.SecureBoot c)
                  SecureBootPolicyEnabled
    then compute.ShieldedInstanceConfig.with_EnableSecureBoot true config
    else config in
  let config :=
    if String.eqb (infrav1.GCPShieldedInstanceConfig.VirtualizedTrustedPlatformModule c)
                  VirtualizedTrustedPlatformModulePolicyDisabled
    then compute.ShieldedInstanceConfig.with_EnableVtpm false config
    else config in
  if String.eqb (infrav1.GCPShieldedInstanceConfig.IntegrityMonitoring c)
                IntegrityMonitoringPolicyDisabled
  then compute.ShieldedInstanceConfig.with_EnableIntegrityMonitoring false config
  else config.

(** [instance.Scheduling.OnHostMaintenance = v]. *)
Definition set_OnHostMaintenance (v : string) (instance : compute.Instance.t)
    : compute.Instance.t :=
  compute.Instance.with_Scheduling
    (compute.Scheduling.with_OnHostMaintenance v
       (compute.Instance.Scheduling instance))
    instance.

(** The host maintenance block of [InstanceSpec]: the switch over the two
    known policies, which logs any other value, and behind it the assignment
    of the upper-cased policy. *)
Definition onHostMaintenance_block (policy : string)
    (instance : compute.Instance.t) : M compute.Instance.t :=
  instance <-
    (if String.eqb policy HostMaintenancePolicyMigrate
     then ret (set_OnHostMaintenance "MIGRATE" instance)
     else if String.eqb policy HostMaintenancePolicyTerminate
     then ret (set_OnHostMaintenance "TERMINATE" instance)
     else
       _ <- emit (LogError "Invalid value" "Unknown OnHostMaintenance value"
                           "Spec.OnHostMaintenance" policy) ;;
       ret instance) ;;
  ret (set_OnHostMaintenance (ToUpper policy) instance).

(** The host maintenance block without its switch: the final assignment
    alone.  [machine.go] does not contain this version; the specification
    compares it with [onHostMaintenance_block]. *)
Definition onHostMaintenance_assignment_only (policy : string)
    (instance : compute.Instance.t) : M compute.Instance.t :=
  ret (set_OnHostMaintenance (ToUpper policy) instance).

(** The body of [InstanceSpec], around the host maintenance block
    [onHostMaintenance]. *)
Definition InstanceSpec_around
    (onHostMaintenance : string -> compute.Instance.t -> M compute.Instance.t)
    (m : MachineScope.t) : M compute.Instance.t :=
  let instance := instance_literal m in
  let instance := compute.Instance.with_CanIpForward true instance in
  let instance :=
    match IPForwarding (Spec (GCPMachine m)) with
    | Some f =>
        if String.eqb f IPForwardingDisabled
        then compute.Instance.with_CanIpForward false instance
        else instance
    | None => instance
    end in
  let instance :=
    match ShieldedInstanceConfig (Spec (GCPMachine m)) with
    | Some c =>
        compute.Instance.with_ShieldedInstanceConfig
          (Some (shieldedInstanceConfig_of c)) instance
    | None => instance
    end in
  instance <-
    match OnHostMaintenance (Spec (GCPMachine m)) with
    | Some policy => onHostMaintenance policy instance
    | None => ret instance
    end ;;
  let instance :=
    match ConfidentialCompute (Spec (GCPMachine m)) with
    | Some c =>
        let enabled := String.eqb c ConfidentialComputePolicyEnabled in
        compute.Instance.with_ConfidentialInstanceConfig
          (Some (compute.ConfidentialInstanceConfig.mk enabled)) instance
    | None => instance
    end in
  let instance :=
    compute.Instance.with_Disks
      (compute.Instance.Disks instance ++ [InstanceImageSpec m]) instance in
  additionalDisks <- InstanceAdditionalDiskSpec m ;;
  let instance :=
    compute.Instance.with_Disks
      (compute.Instance.Disks instance ++ additionalDisks) instance in
  let instance :=
    compute.Instance.with_Metadata
      (Some (InstanceAdditionalMetadataSpec m)) instance in
  let instance :=
    compute.Instance.with_ServiceAccounts
      (compute.Instance.ServiceAccounts instance
       ++ [InstanceServiceAccountsSpec m]) instance in
  instanceNetworkInterfaceSpec <- InstanceNetworkInterfaceSpec m ;;
  match instanceNetworkInterfaceSpec with
  | Some networkInterface =>
      ret (compute.Instance.with_NetworkInterfaces
             (compute.Instance.NetworkInterfaces instance ++ [networkInterface])
             instance)
  | None => ret instance
  end.

(** [InstanceSpec] returns the instance descriptor. *)
Definition InstanceSpec (m : MachineScope.t) : M compute.Instance.t :=
  InstanceSpec_around onHostMaintenance_block m.

(** [InstanceSpec] with the final host maintenance assignment only. *)
Definition InstanceSpec_assignment_only (m : MachineScope.t)
    : M compute.Instance.t :=
  InstanceSpec_around onHostMaintenance_assignment_only m.

End Scope.

(** The imports with the values the upstream packages give them, the
    version and label helpers cut down to what the examples below need:
    [MajorMinor] keeps its argument, [ToUpper] maps the ASCII letters, [Build]
    adds the cluster and role labels to the additional ones. *)
Definition ascii_upper (c : ascii) : ascii :=
  let n := nat_of_ascii c in
  if (97 <=? n)%nat && (n <=? 122)%nat then ascii_of_nat (n - 32) else c.

Fixpoint ascii_ToUpper (s : string) : string :=
  match s with
  | EmptyString => EmptyString
  | String c s' => String (ascii_upper c) (ascii_ToUpper s')
  end.

Definition upstream : Imports := {|
  PdStandardDiskType := "pd-standard";
  LocalSsdDiskType := "local-ssd";
  HostMaintenancePolicyMigrate := "Migrate";
  HostMaintenancePolicyTerminate := "Terminate";
  IPForwardingDisabled := "Disabled";
  SecureBootPolicyEnabled := "Enabled";
  VirtualizedTrustedPlatformModulePolicyDisabled := "Disabled";
  IntegrityMonitoringPolicyDisabled := "Disabled";
  ConfidentialComputePolicyEnabled := "Enabled";
  ResourceLifecycleOwned := "owned";
  Build := fun p =>
    <[ "capg-cluster-" +:+ infrav1.BuildParams.ClusterName p
         := infrav1.BuildParams.Lifecycle p ]>
      (match infrav1.BuildParams.Role p with
       | Some r => <[ "capg-role" := r ]> (infrav1.BuildParams.Additional p)
       | None => infrav1.BuildParams.Additional p
       end);
  AddLabels := fun l other => other ∪ l;
  CloudPlatformScope := "https://www.googleapis.com/auth/cloud-platform";
  MajorMinor := fun v => v;
  ToUpper := ascii_ToUpper;
  IsControlPlaneMachine := fun machine =>
    bool_decide (is_Some (clusterv1.Machine.Labels machine
                            !! "cluster.x-k8s.io/control-plane")) |}.

(** ** The vocabulary of the specification *)

(** The alias marker of the subnet grammar
    [<subnet-locator>[,aliases=<alias-block>]]. *)
Definition marker : string := ",aliases=".

(** How often [substr] occurs in [s]: the number of positions of [s] at which
    [substr] begins. *)
Fixpoint occurrences (s substr : string) : nat :=
  (if strings.HasPrefix s substr then 1 else 0)
  + match s with
    | EmptyString => 0
    | String _ s' => occurrences s' substr
    end.

(** How many bytes of [s] are [c]. *)
Fixpoint count_byte (c : ascii) (s : string) : nat :=
  match s with
  | EmptyString => 0
  | String a s' => (if Ascii.eqb a c then 1 else 0) + count_byte c s'
  end.

(** The text of [s] before its first [c]; all of [s] when it has none. *)
Fixpoint before (c : ascii) (s : string) : string :=
  match s with
  | EmptyString => EmptyString
  | String a s' => if Ascii.eqb a c then EmptyString else String a (before c s')
  end.

(** The text of [s] behind its first [c]; empty when it has none. *)
Fixpoint after (c : ascii) (s : string) : string :=
  match s with
  | EmptyString => EmptyString
  | String a s' => if Ascii.eqb a c then s' else after c s'
  end.

Arguments count_byte c%_char s%_string.
Arguments before c%_char s%_string.
Arguments after c%_char s%_string.

(** The alias IP range an alias entry stands for: [cidr] alone has the empty
    name, [name:cidr] has the name left and the range right of the colon. *)
Definition entry_range (entry : string) : compute.AliasIpRange.t :=
  if (count_byte ":" entry =? 0)%nat
  then compute.AliasIpRange.mk "" entry
  else compute.AliasIpRange.mk (before ":" entry) (after ":" entry).

(** The first of the entries that has two colons or more. *)
Fixpoint first_malformed (entries : list string) : option string :=
  match entries with
  | [] => None
  | e :: entries' =>
      if (2 <=? count_byte ":" e)%nat then Some e else first_malformed entries'
  end.

(** The text of [s] behind the first instance of [substr]; empty when there
    is none. *)
Fixpoint after_substr (s substr : string) : string :=
  if strings.HasPrefix s substr then strings.drop (String.length substr) s
  else match s with
       | EmptyString => EmptyString
       | String _ s' => after_substr s' substr
       end.

(** The owning project a subnet string carries: the segment behind a leading
    [projects/], up to the next slash, unless it is empty. *)
Definition owning_project (subnet : string) : option string :=
  if strings.HasPrefix subnet "projects/"
  then
    let segment := before "/" (strings.TrimPrefix subnet "projects/") in
    if String.eqb segment "" then None else Some segment
  else None.

(** A path element [path.Clean] keeps as it is: not empty, neither [.] nor
    [..], and without a slash. *)
Definition plain (e : string) : Prop :=
  e <> "" /\ e <> "." /\ e <> ".." /\ count_byte "/" e = 0%nat.

(** The names of the failure domains of a cluster. *)
Definition failure_domain_names (c : ClusterGetter.t) : list string :=
  map fst (ClusterGetter.FailureDomains c).

(** The scope [m] around a cluster whose failure domain map is ranged over
    in the order [fd]. *)
Definition ranged (fd : list (string * clusterv1.FailureDomainSpec.t))
    (m : MachineScope.t) : MachineScope.t :=
  MachineScope.mk
    (ClusterGetter.with_FailureDomains fd (ClusterGetter m))
    (Machine m) (GCPMachine m).

(** Every additional disk of the specification names its device type. *)
Definition disks_typed (m : MachineScope.t) : Prop :=
  Forall (fun disk => infrav1.AttachedDiskSpec.DeviceType disk <> None)
         (AdditionalDisks (Spec (GCPMachine m))).

(** What the specification says of one additional disk [disk] and the disk
    [d] built for it in zone [zone], where [localSsd] is the name of the
    local SSD type. *)
Definition disk_as_specified (zone localSsd : string)
    (disk : infrav1.AttachedDiskSpec.t) (d : compute.AttachedDisk.t) : Prop :=
  exists deviceType,
    infrav1.AttachedDiskSpec.DeviceType disk = Some deviceType
    /\ let p := compute.AttachedDisk.InitializeParams d in
       compute.AttachedDiskInitializeParams.DiskType p
         = path.Join ["zones"; zone; "diskTypes"; deviceType]
       /\ if strings.HasSuffix (compute.AttachedDiskInitializeParams.DiskType p)
                               localSsd
          then compute.AttachedDiskInitializeParams.DiskSizeGb p = 375%Z
               /\ compute.AttachedDisk.Type_ d = "SCRATCH"
               /\ compute.AttachedDisk.Interface d = "NVME"
          else compute.AttachedDiskInitializeParams.DiskSizeGb p
                 = match infrav1.AttachedDiskSpec.Size disk with
                   | Some size => size
                   | None => 30%Z
                   end
               /\ compute.AttachedDisk.Type_ d = ""
               /\ compute.AttachedDisk.Interface d = "".

(** ** Example inputs *)

Definition example_cluster : ClusterGetter.t :=
  ClusterGetter.mk "workload-proj" "us-central1" "default" "c1"
    [("us-central1-b", clusterv1.FailureDomainSpec.mk true ∅);
     ("us-central1-a", clusterv1.FailureDomainSpec.mk true ∅)]
    ∅.

Definition example_spec (subnet : option string) : infrav1.GCPMachineSpec.t :=
  infrav1.GCPMachineSpec.mk "n1-standard-2" subnet None None ∅ [] None [] 30
    None
    [infrav1.AttachedDiskSpec.mk (Some "local-ssd") (Some 100%Z);
     infrav1.AttachedDiskSpec.mk (Some "pd-ssd") None]
    None false None None (Some "Migrate") None.

Definition example_scope (subnet : option string) : MachineScope.t :=
  MachineScope.mk example_cluster
    (clusterv1.Machine.mk ∅ (Some "v1.20.1") None)
    (infrav1.GCPMachine.mk "m0" (example_spec subnet)).

(** A control plane machine with every optional block of the
    specification set. *)
Definition example_full_spec : infrav1.GCPMachineSpec.t :=
  infrav1.GCPMachineSpec.mk "n1-standard-2" (Some "my-subnet")
    (Some "my-family") (Some "my-image") ∅
    [infrav1.MetadataItem.mk "k1" (Some "v1");
     infrav1.MetadataItem.mk "k2" None]
    (Some true) ["tag-a"; "tag-b"] 50 (Some "pd-ssd") []
    (Some (infrav1.ServiceAccount.mk "sa@example.com" []))
    true (Some "Disabled")
    (Some (infrav1.GCPShieldedInstanceConfig.mk "Enabled" "Disabled" "Unknown"))
    (Some "Restart") (Some "Enabled").

Definition example_full_scope : MachineScope.t :=
  MachineScope.mk example_cluster
    (clusterv1.Machine.mk {[ "cluster.x-k8s.io/control-plane" := "" ]}
                          (Some "v1.20.1") (Some "us-central1-f"))
    (infrav1.GCPMachine.mk "m1" example_full_spec).

(** A specification whose first additional disk has a size and no device
    type, and whose second is a local SSD. *)
Definition example_untyped_scope : MachineScope.t :=
  MachineScope.mk example_cluster
    (clusterv1.Machine.mk ∅ (Some "v1.20.1") None)
    (infrav1.GCPMachine.mk "m2"
       (infrav1.GCPMachineSpec.mk "n1-standard-2" None None None ∅ [] None []
          30 None
          [infrav1.AttachedDiskSpec.mk None (Some 50%Z);
           infrav1.AttachedDiskSpec.mk (Some "local-ssd") None]
          None false None None None None)).

(** ** The rest of the scope: construction, annotations, bootstrap data *)

(** The specification of [m] with the subnet [subnet] in place of its own. *)
Definition with_Subnet (subnet : option string) (m : MachineScope.t)
    : MachineScope.t :=
  let spec := Spec (GCPMachine m) in
  MachineScope.mk (ClusterGetter m) (Machine m)
    (infrav1.GCPMachine.mk
       (infrav1.GCPMachine.Name (GCPMachine m))
       (infrav1.GCPMachineSpec.mk
          (InstanceType spec) subnet (ImageFamily spec) (Image spec)
          (AdditionalLabels spec) (AdditionalMetadata spec) (PublicIP spec)
          (AdditionalNetworkTags spec) (RootDeviceSize spec)
          (RootDeviceType spec) (AdditionalDisks spec) (ServiceAccount spec)
          (Preemptible spec) (IPForwarding spec) (ShieldedInstanceConfig spec)
          (OnHostMaintenance spec) (ConfidentialCompute spec))).

(** The disk [d] built for the additional disk [disk], told by the device
    type of [disk] alone: the local SSD treatment when the device type ends
    in [localSsd], the requested or default size otherwise. *)
Definition disk_by_device_type (localSsd : string)
    (disk : infrav1.AttachedDiskSpec.t) (d : compute.AttachedDisk.t) : Prop :=
  forall deviceType,
    infrav1.AttachedDiskSpec.DeviceType disk = Some deviceType ->
    plain deviceType ->
    let p := compute.AttachedDisk.InitializeParams d in
    if strings.HasSuffix deviceType localSsd
    then compute.AttachedDiskInitializeParams.DiskSizeGb p = 375%Z
         /\ compute.AttachedDisk.Type_ d = "SCRATCH"
         /\ compute.AttachedDisk.Interface d = "NVME"
    else compute.AttachedDiskInitializeParams.DiskSizeGb p
           = Int64Deref (infrav1.AttachedDiskSpec.Size disk) 30
         /\ compute.AttachedDisk.Type_ d = ""
         /\ compute.AttachedDisk.Interface d = "".

(** The log entry of [InstanceSpec] for an unknown host maintenance policy,
    and no entry for a known or an absent one. *)
Definition policy_log `{Imports} (m : MachineScope.t) : list Event :=
  match OnHostMaintenance (Spec (GCPMachine m)) with
  | Some policy =>
      if String.eqb policy HostMaintenancePolicyMigrate
         || String.eqb policy HostMaintenancePolicyTerminate
      then []
      else [LogError "Invalid value" "Unknown OnHostMaintenance value"
                     "Spec.OnHostMaintenance" policy]
  | None => []
  end.

(** [corev1.Secret], as far as [GetBootstrapData] reads it. *)
Module Secret.
Record t := mk { Data : gmap string string }.
End Secret.

(** The Kubernetes client, as far as the scope uses it: [client.Get] of the
    secret with a namespace and a name, which yields the secret or an
    error. *)
Definition Client : Type := string -> string -> Secret.t + string.

(** What the scope reaches through its machine and GCP machine besides the
    fields of [MachineScope.t]: [m.GCPMachine.Namespace],
    [m.GCPMachine.Annotations], a map that may be nil, and
    [m.Machine.Spec.Bootstrap.DataSecretName]. *)
Module Object.
Record t := mk {
      Namespace : string;
      Annotations : option (gmap string string);
      DataSecretName : option string }.
End Object.

(** [SetAnnotation] sets a key value annotation on the GCPMachine, in a new
    map when there is none. *)
Definition SetAnnotation (key value : string) (o : Object.t) : Object.t :=
  let annotations :=
    match Object.Annotations o with
    | None => ∅
    | Some annotations => annotations
    end in
  Object.mk (Object.Namespace o) (Some (<[key := value]> annotations))
            (Object.DataSecretName o).

(** [errors.Wrap(err, message)] and [errors.Wrapf], by their messages. *)
Definition Wrap (err message : string) : string := message +:+ ": " +:+ err.

(** [GetBootstrapData] returns the bootstrap data from the secret the
    machine's [bootstrap.dataSecretName] names. *)
Definition GetBootstrapData (client : Client) (m : MachineScope.t)
    (o : Object.t) : string * option string :=
  match Object.DataSecretName o with
  | None =>
      ("", Some "error retrieving bootstrap data: linked Machine's bootstrap.dataSecretName is nil")
  | Some dataSecretName =>
      match client (Object.Namespace o) dataSecretName with
      | inr err =>
          ("", Some (Wrap err
                       ("failed to retrieve bootstrap data secret for GCPMachine "
                        +:+ Object.Namespace o +:+ "/" +:+ Name m)))
      | inl secret =>
          match Secret.Data secret !! "value" with
          | None =>
              ("", Some "error retrieving bootstrap data: secret value key is missing")
          | Some value => (value, None)
          end
      end
  end.

(** [MachineScopeParams], the input of [NewMachineScope]. *)
Module MachineScopeParams.
Record t := mk {
      Client : option Client;
      ClusterGetter : ClusterGetter.t;
      Machine : option clusterv1.Machine.t;
      GCPMachine : option infrav1.GCPMachine.t }.
End MachineScopeParams.

Section NewScope.

(** [patch.Helper] and [patch.NewHelper] of cluster-api. *)
Variable Helper : Type.
Variable NewHelper : infrav1.GCPMachine.t -> Client -> Helper + string.

(** The scope [NewMachineScope] returns: the fields of [MachineScope.t],
    the client and the patch helper. *)
Record NewScope := {
      scope : MachineScope.t;
      client : Client;
      patchHelper : Helper }.

(** [NewMachineScope] creates a scope from the parameters, each of which
    but the cluster is required. *)
Definition NewMachineScope (params : MachineScopeParams.t)
    : option NewScope * option string :=
  match MachineScopeParams.Client params with
  | None => (None, Some "client is required when creating a MachineScope")
  | Some c =>
      match MachineScopeParams.Machine params with
      | None => (None, Some "machine is required when creating a MachineScope")
      | Some machine =>
          match MachineScopeParams.GCPMachine params with
          | None =>
              (None, Some "gcp machine is required when creating a MachineScope")
          | Some gcpMachine =>
              match NewHelper gcpMachine c with
              | inr err => (None, Some (Wrap err "failed to init patch helper"))
              | inl helper =>
                  (Some {| scope :=
                             MachineScope.mk
                               (MachineScopeParams.ClusterGetter params)
                               machine gcpMachine;
                           client := c;
                           patchHelper := helper |},
                   None)
              end
          end
      end
  end.

End NewScope.

(** ** Strings: prefixes, occurrences, pieces *)

Lemma app_String a s t : String a s +:+ t = String a (s +:+ t).
Proof. reflexivity. Qed.

Lemma app_empty_l t : "" +:+ t = t.
Proof. reflexivity. Qed.

Lemma app_empty_r s : s +:+ "" = s.
Proof. induction s as [|a s IH]; [reflexivity|]. now rewrite app_String, IH. Qed.

Lemma app_assoc' s t u : (s +:+ t) +:+ u = s +:+ (t +:+ u).
Proof.
  induction s as [|a s IH]; [reflexivity|].
  now rewrite !app_String, IH.
Qed.

Lemma length_app s t :
  String.length (s +:+ t) = (String.length s + String.length t)%nat.
Proof.
  induction s as [|a s IH]; [reflexivity|].
  rewrite app_String. simpl. now rewrite IH.
Qed.

Lemma HasPrefix_app p t : strings.HasPrefix (p +:+ t) p = true.
Proof.
  induction p as [|a p IH]; [reflexivity|].
  rewrite app_String. simpl. now rewrite Ascii.eqb_refl, IH.
Qed.

Lemma HasPrefix_inv s p :
  strings.HasPrefix s p = true -> s = p +:+ strings.drop (String.length p) s.
Proof.
  revert s. induction p as [|a p IH]; intros s Hp; [reflexivity|].
  destruct s as [|c s]; [discriminate|].
  simpl in Hp. apply andb_prop in Hp as [Hc Hp].
  apply Ascii.eqb_eq in Hc as ->.
  rewrite app_String. simpl. f_equal. now apply IH.
Qed.

Lemma drop_app p t : strings.drop (String.length p) (p +:+ t) = t.
Proof. induction p as [|a p IH]; [reflexivity|]. now rewrite app_String. Qed.

Lemma TrimPrefix_app p t : strings.TrimPrefix (p +:+ t) p = t.
Proof. unfold strings.TrimPrefix. now rewrite HasPrefix_app, drop_app. Qed.

Lemma Contains_unfold s substr :
  strings.Contains s substr
  = strings.HasPrefix s substr
    || match s with
       | EmptyString => false
       | String _ s' => strings.Contains s' substr
       end.
Proof. destruct s; reflexivity. Qed.

Lemma Contains_app a substr b :
  strings.Contains (a +:+ substr +:+ b) substr = true.
Proof.
  induction a as [|c a IH].
  - rewrite app_empty_l, Contains_unfold, HasPrefix_app. reflexivity.
  - rewrite app_String, Contains_unfold, IH. apply orb_true_r.
Qed.

Lemma occurrences_unfold s substr :
  occurrences s substr
  = ((if strings.HasPrefix s substr then 1 else 0)
     + match s with
       | EmptyString => 0
       | String _ s' => occurrences s' substr
       end)%nat.
Proof. destruct s; reflexivity. Qed.

Lemma Contains_occurrences s substr :
  strings.Contains s substr = true <-> (0 < occurrences s substr)%nat.
Proof.
  induction s as [|c s IH]; rewrite Contains_unfold, occurrences_unfold.
  - destruct (strings.HasPrefix "" substr); simpl; split; (lia || discriminate || reflexivity).
  - destruct (strings.HasPrefix (String c s) substr); simpl.
    + split; [lia | reflexivity].
    + rewrite IH. reflexivity.
Qed.

Lemma occurrences_app_le a b substr :
  (occurrences b substr <= occurrences (a +:+ b) substr)%nat.
Proof.
  induction a as [|c a IH]; [rewrite app_empty_l; lia|].
  rewrite app_String, (occurrences_unfold (String c _)). lia.
Qed.

Lemma occurrences_app a substr b :
  substr <> "" ->
  (S (occurrences b substr) <= occurrences (a +:+ substr +:+ b) substr)%nat.
Proof.
  intros Hne. induction a as [|c a IH].
  - rewrite app_empty_l, (occurrences_unfold (substr +:+ b)), HasPrefix_app.
    destruct substr as [|p substr]; [contradiction|].
    rewrite app_String.
    pose proof (occurrences_app_le substr b (String p substr)). lia.
  - rewrite app_String, (occurrences_unfold (String c _)). lia.
Qed.

(** No instance of the marker begins inside another one, so Go's count of
    the instances that do not overlap counts them all. *)
Lemma count_from_marker k s :
  strings.count_from k s marker = occurrences (strings.drop k s) marker.
Proof.
  revert k. induction s as [|c s IH]; intros k.
  - destruct k; reflexivity.
  - destruct k as [|k]; [|simpl; apply IH].
    cbn [strings.count_from strings.drop].
    destruct (strings.HasPrefix (String c s) marker) eqn:Hp.
    + rewrite IH, (occurrences_unfold (String c s)), Hp.
      apply HasPrefix_inv in Hp.
      unfold marker in Hp. rewrite app_String in Hp.
      injection Hp as _ Hs. rewrite Hs.
      change (String.length marker - 1)%nat with (String.length "aliases=").
      rewrite drop_app, !app_String, app_empty_l.
      reflexivity.
    + rewrite IH. simpl strings.drop.
      rewrite (occurrences_unfold (String c s)), Hp. reflexivity.
Qed.

Lemma Count_marker s : strings.Count s marker = occurrences s marker.
Proof. apply (count_from_marker 0). Qed.

Lemma Split_unfold c s sep :
  strings.Split (String c s) sep
  = if Ascii.eqb c sep then EmptyString :: strings.Split s sep
    else match strings.Split s sep with
         | piece :: pieces => String c piece :: pieces
         | [] => [String c EmptyString]
         end.
Proof. reflexivity. Qed.

Lemma Split_not_nil s sep : strings.Split s sep <> [].
Proof.
  destruct s as [|c s]; [discriminate|].
  rewrite Split_unfold.
  destruct (Ascii.eqb c sep); [discriminate|].
  destruct (strings.Split s sep); discriminate.
Qed.

(** The pieces of a string are its first piece, which is the text before the
    first separator, and the pieces of the text behind that separator. *)
Lemma Split_before_after s sep :
  strings.Split s sep
  = before sep s
    :: (if (count_byte sep s =? 0)%nat then []
        else strings.Split (after sep s) sep).
Proof.
  induction s as [|c s IH]; [reflexivity|].
  rewrite Split_unfold. simpl.
  destruct (Ascii.eqb c sep); [reflexivity|].
  rewrite IH. reflexivity.
Qed.

Lemma length_Split s sep :
  length (strings.Split s sep) = S (count_byte sep s).
Proof.
  induction s as [|c s IH]; [reflexivity|].
  rewrite Split_unfold. simpl count_byte.
  destruct (Ascii.eqb c sep); simpl; [now rewrite IH|].
  destruct (strings.Split s sep); simpl in *; lia.
Qed.

Lemma before_no_sep sep s : count_byte sep s = 0%nat -> before sep s = s.
Proof.
  induction s as [|c s IH]; [reflexivity|].
  simpl. destruct (Ascii.eqb c sep); [discriminate|].
  intros Hc. now rewrite IH.
Qed.

Lemma Split_no_sep s sep : count_byte sep s = 0%nat -> strings.Split s sep = [s].
Proof.
  intros Hc. rewrite Split_before_after, Hc, before_no_sep by exact Hc.
  reflexivity.
Qed.

Lemma Split_one_sep s sep :
  count_byte sep s = 1%nat ->
  strings.Split s sep = [before sep s; after sep s].
Proof.
  intros Hc. rewrite Split_before_after, Hc. simpl. f_equal.
  apply Split_no_sep.
  induction s as [|c s IH]; [discriminate|].
  simpl in *. destruct (Ascii.eqb c sep); [lia|]. now apply IH.
Qed.

Lemma count_byte_app sep a b :
  count_byte sep (a +:+ b) = (count_byte sep a + count_byte sep b)%nat.
Proof.
  induction a as [|c a IH]; [reflexivity|].
  rewrite app_String. simpl. rewrite IH. lia.
Qed.

Lemma before_app_no_sep sep a b :
  count_byte sep a = 0%nat -> before sep (a +:+ b) = a +:+ before sep b.
Proof.
  induction a as [|c a IH]; [reflexivity|].
  rewrite !app_String. simpl.
  destruct (Ascii.eqb c sep); [discriminate|].
  intros Hc. now rewrite IH.
Qed.

Lemma after_app_no_sep sep a b :
  count_byte sep a = 0%nat -> after sep (a +:+ b) = after sep b.
Proof.
  induction a as [|c a IH]; [reflexivity|].
  rewrite !app_String. simpl.
  destruct (Ascii.eqb c sep); [discriminate|]. auto.
Qed.

Lemma before_sep_after sep s :
  count_byte sep s <> 0%nat ->
  s = before sep s +:+ String sep (after sep s).
Proof.
  induction s as [|c s IH]; [intros []; reflexivity|].
  simpl. destruct (Ascii.eqb c sep) eqn:Hc.
  - apply Ascii.eqb_eq in Hc as ->. reflexivity.
  - intros Hs. rewrite app_String. f_equal. now apply IH.
Qed.

(** The pieces of [a], a separator and [b] are the pieces of [a] and the
    pieces of [b]. *)
Lemma Split_app_sep a b sep :
  strings.Split (a +:+ String sep b) sep
  = strings.Split a sep ++ strings.Split b sep.
Proof.
  induction a as [|c a IH].
  - rewrite app_empty_l, Split_unfold, Ascii.eqb_refl. reflexivity.
  - rewrite app_String, !Split_unfold, IH.
    destruct (Ascii.eqb c sep); [reflexivity|].
    pose proof (Split_not_nil a sep).
    destruct (strings.Split a sep); [contradiction|reflexivity].
Qed.

Lemma Contains_byte s c :
  strings.Contains s (String c EmptyString) = negb (count_byte c s =? 0)%nat.
Proof.
  induction s as [|a s IH]; [reflexivity|].
  rewrite Contains_unfold, IH. simpl.
  destruct (Ascii.eqb a c); simpl; [reflexivity|].
  reflexivity.
Qed.

Lemma length_zero_empty s : (0 <? String.length s)%nat = negb (String.eqb s "").
Proof. destruct s; reflexivity. Qed.

(** ** The owning project of a subnet *)

Lemma owning_project_Split subnet :
  (if strings.Contains subnet "/" then
     match strings.Split subnet "/" with
     | s0 :: s1 :: _ =>
         if String.eqb s0 "projects" && (0 <? String.length s1)%nat
         then Some s1 else None
     | _ => None
     end
   else None) = owning_project subnet.
Proof.
  unfold owning_project. rewrite Contains_byte.
  destruct (count_byte "/" subnet =? 0)%nat eqn:Hslash; cbv [negb].
  - destruct (strings.HasPrefix subnet "projects/") eqn:Hp; [|reflexivity].
    apply HasPrefix_inv in Hp. rewrite Hp, count_byte_app in Hslash.
    discriminate.
  - rewrite Split_before_after, Hslash, Split_before_after.
    rewrite length_zero_empty.
    destruct (strings.HasPrefix subnet "projects/") eqn:Hp.
    + apply HasPrefix_inv in Hp.
      set (t := strings.drop (String.length "projects/") subnet) in *.
      rewrite Hp, TrimPrefix_app.
      change ("projects/" +:+ t) with ("projects" +:+ String "/" t).
      rewrite before_app_no_sep, after_app_no_sep by reflexivity.
      cbn [before after Ascii.eqb Bool.eqb]. rewrite app_empty_r, String.eqb_refl.
      destruct (String.eqb (before "/" t) ""); reflexivity.
    + destruct (String.eqb (before "/" subnet) "projects") eqn:Hb; [|reflexivity].
      apply String.eqb_eq in Hb.
      apply Nat.eqb_neq, before_sep_after in Hslash.
      rewrite Hb in Hslash.
      change ("projects" +:+ String "/" (after "/" subnet))
        with ("projects/" +:+ after "/" subnet) in Hslash.
      rewrite Hslash, HasPrefix_app in Hp. discriminate.
Qed.

Lemma getProjectFromSubnet_owning_project m :
  getProjectFromSubnet m
  = match Subnet (Spec (GCPMachine m)) with
    | Some subnet => owning_project subnet
    | None => None
    end.
Proof.
  unfold getProjectFromSubnet, subnetHasSlashes.
  destruct (Subnet (Spec (GCPMachine m))) as [subnet|]; [|reflexivity].
  rewrite <- owning_project_Split.
  destruct (strings.Contains subnet "/"); reflexivity.
Qed.

(** ** The alias range parser *)

Lemma HasPrefix_app_l s t p :
  strings.HasPrefix s p = true -> strings.HasPrefix (s +:+ t) p = true.
Proof.
  intros Hp. apply HasPrefix_inv in Hp. rewrite Hp, app_assoc'.
  apply HasPrefix_app.
Qed.

Lemma HasPrefix_before sep s p :
  count_byte sep p = 0%nat ->
  strings.HasPrefix (before sep s) p = strings.HasPrefix s p.
Proof.
  revert s. induction p as [|a p IH]; intros s Hc; [reflexivity|].
  simpl in Hc. destruct (Ascii.eqb a sep) eqn:Ha; [discriminate|].
  destruct s as [|c s]; [reflexivity|].
  simpl. destruct (Ascii.eqb c sep) eqn:Hcs.
  - apply Ascii.eqb_eq in Hcs as ->.
    rewrite Ascii.eqb_sym, Ha. reflexivity.
  - simpl. now rewrite IH.
Qed.

Lemma occurrences_empty substr : substr <> "" -> occurrences "" substr = 0%nat.
Proof. destruct substr; [contradiction|reflexivity]. Qed.

Lemma occurrences_app_ge a b substr :
  substr <> "" ->
  (occurrences a substr + occurrences b substr
   <= occurrences (a +:+ b) substr)%nat.
Proof.
  intros Hne. induction a as [|c a IH].
  - rewrite app_empty_l, occurrences_empty by exact Hne. lia.
  - rewrite app_String, (occurrences_unfold (String c a)),
      (occurrences_unfold (String c (a +:+ b))).
    destruct (strings.HasPrefix (String c a) substr) eqn:Hp.
    + change (String c (a +:+ b)) with (String c a +:+ b).
      rewrite (HasPrefix_app_l _ b _ Hp). lia.
    + destruct (strings.HasPrefix (String c (a +:+ b)) substr); lia.
Qed.

(** Behind the first instance of a substring a string has what
    [after_substr] returns. *)
Lemma after_substr_spec s substr :
  strings.Contains s substr = true ->
  exists a, s = a +:+ substr +:+ after_substr s substr.
Proof.
  induction s as [|c s IH]; intros Hc.
  - exists "". rewrite app_empty_l.
    rewrite Contains_unfold, orb_false_r in Hc.
    cbn [after_substr]. rewrite Hc. now apply HasPrefix_inv.
  - cbn [after_substr]. rewrite Contains_unfold in Hc.
    destruct (strings.HasPrefix (String c s) substr) eqn:Hp.
    + exists "". rewrite app_empty_l. now apply HasPrefix_inv.
    + destruct (IH Hc) as [a Ha]. exists (String c a).
      rewrite app_String. now f_equal.
Qed.

(** The entries of an alias definition become ranges one by one, up to the
    first entry with two colons or more. *)
Lemma aliasRanges_loop_spec entries ranges :
  aliasRanges_loop entries ranges
  = match first_malformed entries with
    | Some r => ([], Some (ErrInvalidAliasRange r))
    | None => (ranges ++ map entry_range entries, None)
    end.
Proof.
  revert ranges. induction entries as [|r entries IH]; intros ranges.
  - simpl. now rewrite app_nil_r.
  - cbn [aliasRanges_loop first_malformed]. rewrite length_Split.
    destruct (count_byte ":" r) as [|[|n]] eqn:Hn.
    + rewrite (Split_no_sep r) by exact Hn. cbn -[entry_range].
      rewrite IH. destruct (first_malformed entries); [reflexivity|].
      unfold entry_range at 2. rewrite Hn, <- app_assoc. reflexivity.
    + rewrite (Split_one_sep r) by exact Hn. cbn -[entry_range].
      rewrite IH. destruct (first_malformed entries); [reflexivity|].
      unfold entry_range at 2. rewrite Hn, <- app_assoc. reflexivity.
    + reflexivity.
Qed.

Lemma first_malformed_None entries :
  first_malformed entries = None
  <-> Forall (fun e => (count_byte ":" e <= 1)%nat) entries.
Proof.
  induction entries as [|e entries IH]; cbn [first_malformed].
  - split; [constructor | reflexivity].
  - destruct (2 <=? count_byte ":" e)%nat eqn:He.
    + apply Nat.leb_le in He. split; [discriminate|].
      intros Hf. inversion Hf; subst. lia.
    + apply Nat.leb_gt in He. rewrite IH. split.
      * intros Hf. constructor; [lia | exact Hf].
      * intros Hf. now inversion Hf.
Qed.

Lemma first_malformed_Some entries r :
  first_malformed entries = Some r ->
  In r entries /\ (2 <= count_byte ":" r)%nat.
Proof.
  induction entries as [|e entries IH]; cbn [first_malformed]; [discriminate|].
  destruct (2 <=? count_byte ":" e)%nat eqn:He.
  - intros [= <-]. apply Nat.leb_le in He. split; [now left | exact He].
  - intros Hr. destruct (IH Hr). split; [now right | assumption].
Qed.

Lemma subnetSlice_loop_app pieces pieces' ranges :
  Forall (fun p => strings.HasPrefix p "aliases=" = false) pieces ->
  subnetSlice_loop (pieces ++ pieces') ranges = subnetSlice_loop pieces' ranges.
Proof.
  induction 1 as [|p pieces Hp _ IH]; [reflexivity|].
  cbn [app subnetSlice_loop]. now rewrite Hp.
Qed.

(** Without a marker in it, a string has no piece that starts with
    [aliases=], its first piece aside. *)
Lemma pieces_without_marker s :
  occurrences s marker = 0%nat ->
  Forall (fun p => strings.HasPrefix p "aliases=" = false)
         (tail (strings.Split s ",")).
Proof.
  induction s as [|c s IH]; intros Ho; [constructor|].
  rewrite occurrences_unfold in Ho.
  assert (Ho' : occurrences s marker = 0%nat) by lia.
  rewrite Split_unfold. destruct (Ascii.eqb c ",") eqn:Hc.
  - apply Ascii.eqb_eq in Hc as ->. cbn [tail].
    rewrite Split_before_after. constructor.
    + rewrite HasPrefix_before by reflexivity.
      destruct (strings.HasPrefix s "aliases=") eqn:Hp; [|reflexivity].
      unfold marker in Ho. cbn [strings.HasPrefix] in Ho.
      rewrite Ascii.eqb_refl in Ho. cbn [strings.HasPrefix] in Hp.
      rewrite Hp in Ho. simpl in Ho. lia.
    + specialize (IH Ho'). now rewrite Split_before_after in IH.
  - specialize (IH Ho').
    destruct (strings.Split s ","); [constructor | exact IH].
Qed.

(** A subnet with one marker that does not itself begin with [aliases=]:
    the entries parsed are those between the marker and the next comma. *)
Lemma getInstanceAliasIpRanges_marked m subnet :
  Subnet (Spec (GCPMachine m)) = Some subnet ->
  strings.Count subnet marker = 1%nat ->
  strings.HasPrefix subnet "aliases=" = false ->
  getInstanceAliasIpRanges m
  = let entries :=
      strings.Split (before "," (after_substr subnet marker)) ";" in
    match first_malformed entries with
    | Some r => ([], Some (ErrInvalidAliasRange r))
    | None => (map entry_range entries, None)
    end.
Proof.
  intros Hsub Hcount Hstart. unfold getInstanceAliasIpRanges. rewrite Hsub.
  fold marker. rewrite Hcount.
  rewrite Count_marker in Hcount.
  assert (Hc : strings.Contains subnet marker = true)
    by (apply Contains_occurrences; lia).
  rewrite Hc. cbn [negb Nat.ltb Nat.leb].
  destruct (after_substr_spec _ _ Hc) as [a Ha].
  set (rest := after_substr subnet marker) in *. clearbody rest. subst subnet.
  assert (Ha : occurrences a marker = 0%nat).
  { pose proof (occurrences_app_ge a (marker +:+ rest) marker ltac:(discriminate)).
    pose proof (occurrences_app "" marker rest ltac:(discriminate)) as Hm.
    rewrite app_empty_l in Hm. lia. }
  assert (Hp : strings.HasPrefix a "aliases=" = false).
  { destruct (strings.HasPrefix a "aliases=") eqn:Hp; [|reflexivity].
    now rewrite (HasPrefix_app_l _ _ _ Hp) in Hstart. }
  change (a +:+ marker +:+ rest) with (a +:+ String "," ("aliases=" +:+ rest)).
  rewrite Split_app_sep, subnetSlice_loop_app.
  - rewrite (Split_before_after ("aliases=" +:+ rest)).
    rewrite before_app_no_sep by reflexivity.
    cbn [subnetSlice_loop]. rewrite HasPrefix_app, TrimPrefix_app.
    rewrite aliasRanges_loop_spec. cbv zeta.
    destruct (first_malformed _); [reflexivity|].
    rewrite app_nil_l, length_map, length_Split. reflexivity.
  - rewrite Split_before_after. constructor.
    + now rewrite HasPrefix_before by reflexivity.
    + pose proof (pieces_without_marker a Ha) as Ht.
      now rewrite Split_before_after in Ht.
Qed.

Lemma getInstanceAliasIpRanges_multiple m subnet :
  Subnet (Spec (GCPMachine m)) = Some subnet ->
  (1 < occurrences subnet marker)%nat ->
  getInstanceAliasIpRanges m = ([], Some (ErrMultipleAliasRanges subnet)).
Proof.
  intros Hsub Ho. unfold getInstanceAliasIpRanges. rewrite Hsub. fold marker.
  assert (Hc : strings.Contains subnet marker = true)
    by (apply Contains_occurrences; lia).
  rewrite Hc, Count_marker. cbn [negb].
  apply Nat.ltb_lt in Ho. now rewrite Ho.
Qed.

(** ** Paths of plain elements *)

Lemma plain_eqb e :
  plain e ->
  String.eqb e "" = false /\ String.eqb e "." = false
  /\ String.eqb e ".." = false.
Proof.
  intros (H1 & H2 & H3 & _). repeat split; now apply String.eqb_neq.
Qed.

Lemma step_plain rooted b e :
  plain e ->
  path.step rooted b e
  = {| path.out := e :: path.out b; path.dotdot := path.dotdot b |}.
Proof.
  intros He. destruct (plain_eqb e He) as (H1 & H2 & H3).
  unfold path.step. now rewrite H1, H2, H3.
Qed.

Lemma fold_step_plain rooted elems b :
  Forall plain elems ->
  fold_left (path.step rooted) elems b
  = {| path.out := rev elems ++ path.out b; path.dotdot := path.dotdot b |}.
Proof.
  intros Hp. revert b. induction Hp as [|e elems He _ IH]; intros b.
  - now destruct b.
  - cbn [fold_left]. rewrite IH, step_plain by exact He.
    cbn [path.out path.dotdot rev]. now rewrite <- app_assoc.
Qed.

Lemma Join_cons e e' elems sep :
  strings.Join (e :: e' :: elems) sep
  = e +:+ sep +:+ strings.Join (e' :: elems) sep.
Proof. reflexivity. Qed.

Lemma Split_Join elems :
  elems <> [] ->
  Forall (fun e => count_byte "/" e = 0%nat) elems ->
  strings.Split (strings.Join elems "/") "/" = elems.
Proof.
  intros Hne Hc. induction Hc as [|e elems He Hc IH]; [contradiction|].
  destruct elems as [|e' elems].
  - now apply Split_no_sep.
  - rewrite Join_cons.
    change ("/" +:+ strings.Join (e' :: elems) "/")
      with (String "/" (strings.Join (e' :: elems) "/")).
    rewrite Split_app_sep, Split_no_sep, IH by (exact He || discriminate).
    reflexivity.
Qed.

Lemma join_buf_nonempty buf elem :
  buf <> "" -> path.join_buf buf elem = strings.Join (buf :: elem) "/".
Proof.
  revert buf. induction elem as [|e elem IH]; intros buf Hb; [reflexivity|].
  cbn [path.join_buf]. apply String.eqb_neq in Hb as Hb'. rewrite Hb'.
  cbn [negb orb]. rewrite IH.
  - destruct elem as [|e' elem].
    + cbn [strings.Join]. apply app_assoc'.
    + rewrite !Join_cons, !app_assoc'. reflexivity.
  - destruct buf; [contradiction|]. rewrite !app_String. discriminate.
Qed.

Lemma fold_size_ge elem n :
  (n <= fold_left (fun n e => n + String.length e) elem n)%nat.
Proof.
  revert n. induction elem as [|e elem IH]; intros n; [reflexivity|].
  cbn [fold_left]. specialize (IH (n + String.length e)%nat). lia.
Qed.

(** [path.Join] of plain elements writes them one behind the other, with
    slashes between them. *)
Lemma Join_plain elem :
  elem <> [] -> Forall plain elem -> path.Join elem = strings.Join elem "/".
Proof.
  intros Hne Hp. destruct elem as [|e elem]; [contradiction|].
  assert (He : plain e) by now inversion Hp.
  destruct He as (He & _ & _ & Hslash).
  destruct e as [|c e]; [contradiction|].
  unfold path.Join. cbn [fold_left].
  pose proof (fold_size_ge elem (0 + String.length (String c e))) as Hsize.
  cbn [String.length] in *.
  destruct (Nat.eqb_spec
    (fold_left (fun n e0 => (n + String.length e0)%nat) elem
               (0 + S (String.length e))%nat) 0) as [Hz|_]; [lia|].
  cbn [path.join_buf String.eqb negb orb]. rewrite app_empty_l.
  rewrite join_buf_nonempty by discriminate.
  unfold path.Clean.
  assert (Hshape : exists t, strings.Join (String c e :: elem) "/" = String c t).
  { destruct elem; [now exists e|]. rewrite Join_cons, app_String. eauto. }
  destruct Hshape as [t Ht].
  cbn [count_byte] in Hslash.
  destruct (Ascii.eqb c "/") eqn:Hc; [discriminate|].
  assert (Hempty : String.eqb (strings.Join (String c e :: elem) "/") "" = false)
    by now rewrite Ht.
  assert (Hrooted : strings.HasPrefix (strings.Join (String c e :: elem) "/") "/" = false)
    by (rewrite Ht; cbn [strings.HasPrefix]; now rewrite Hc).
  rewrite Hempty, Hrooted, Split_Join.
  - rewrite fold_step_plain by exact Hp. cbn [path.out].
    rewrite app_nil_r, rev_involutive.
    destruct (rev (String c e :: elem)) eqn:Hr; [|reflexivity].
    apply (f_equal (@length _)) in Hr. rewrite length_rev in Hr. discriminate.
  - discriminate.
  - eapply Forall_impl; [exact Hp|]. now intros x (_ & _ & _ & Hx).
Qed.

Lemma plain_literal e :
  (String.eqb e "" || String.eqb e "." || String.eqb e ".."
   || negb (count_byte "/" e =? 0)%nat) = false ->
  plain e.
Proof.
  intros H. repeat (apply orb_false_elim in H as [H ?]).
  repeat split; try (now apply String.eqb_neq).
  apply Nat.eqb_eq. now destruct (count_byte "/" e =? 0)%nat.
Qed.

(** ** The zone *)

Lemma fold_append {A} (l acc : list A) :
  fold_left (fun zones zone => zones ++ [zone]) l acc = acc ++ l.
Proof.
  revert acc. induction l as [|x l IH]; intros acc; cbn [fold_left].
  - now rewrite app_nil_r.
  - now rewrite IH, <- app_assoc.
Qed.

Lemma Zone_unfold m :
  Zone m
  = match clusterv1.Machine.FailureDomain (Machine m) with
    | Some failureDomain => failureDomain
    | None =>
        match sort.Strings (failure_domain_names (ClusterGetter m)) with
        | zone :: _ => zone
        | [] => ""
        end
    end.
Proof.
  unfold Zone, failure_domain_names.
  destruct (clusterv1.Machine.FailureDomain (Machine m)); [reflexivity|].
  rewrite fold_append, app_nil_l.
  destruct (ClusterGetter.FailureDomains (ClusterGetter m)); reflexivity.
Qed.

(** The sorted slice does not depend on the order its elements came in. *)
Lemma Strings_Permutation l l' : l ≡ₚ l' -> sort.Strings l = sort.Strings l'.
Proof.
  intros Hp. unfold sort.Strings.
  apply (Sorted_unique String.le); try apply Sorted_merge_sort; try apply _.
  now rewrite !merge_sort_Permutation.
Qed.

Lemma Strings_head l zone zones :
  sort.Strings l = zone :: zones ->
  In zone l /\ forall z, In z l -> String.le zone z.
Proof.
  intros Hs.
  pose proof (StronglySorted_merge_sort String.le l) as Hsorted.
  pose proof (merge_sort_Permutation String.le l) as Hperm.
  unfold sort.Strings in Hs. rewrite Hs in Hsorted, Hperm.
  split.
  - apply list_elem_of_In. rewrite <- Hperm. left.
  - intros z Hz. apply list_elem_of_In in Hz. rewrite <- Hperm in Hz.
    apply StronglySorted_inv in Hsorted as [_ Hall].
    apply elem_of_cons in Hz as [->|Hz]; [reflexivity|].
    rewrite Forall_forall in Hall. now apply Hall.
Qed.

Lemma Strings_nil l : sort.Strings l = [] -> l = [].
Proof.
  intros Hs. apply Permutation_nil_r.
  rewrite <- Hs. unfold sort.Strings. now rewrite merge_sort_Permutation.
Qed.

Lemma Zone_ranged m fd :
  ClusterGetter.FailureDomains (ClusterGetter m) ≡ₚ fd ->
  Zone (ranged fd m) = Zone m.
Proof.
  intros Hp. rewrite !Zone_unfold.
  change (Machine (ranged fd m)) with (Machine m).
  change (failure_domain_names (ClusterGetter (ranged fd m))) with (map fst fd).
  destruct (clusterv1.Machine.FailureDomain (Machine m)); [reflexivity|].
  unfold failure_domain_names.
  rewrite (Strings_Permutation (map fst fd)
             (map fst (ClusterGetter.FailureDomains (ClusterGetter m)))).
  - reflexivity.
  - now rewrite Hp.
Qed.

(** ** Computations *)

Lemma returned_bind {A B} (m : M A) (k : A -> M B) :
  returned (bind m k)
  = match returned m with
    | Some a => returned (k a)
    | None => None
    end.
Proof.
  destruct m as [w [a|]]; [|reflexivity].
  unfold bind, returned. cbn. now destruct (k a).
Qed.

Lemma bind_ret_l {A B} (a : A) (k : A -> M B) : bind (ret a) k = k a.
Proof. unfold bind, ret. now destruct (k a). Qed.

Lemma index0_Split s sep : index0 (strings.Split s sep) = ret (before sep s).
Proof. now rewrite Split_before_after. Qed.

(** ** The network interface *)

Lemma getSubnetworkPath_set m subnet :
  Subnet (Spec (GCPMachine m)) = Some subnet ->
  getSubnetworkPath m
  = ret (before ","
           (match owning_project subnet with
            | Some _ => subnet
            | None =>
                path.Join ["regions"; ClusterGetter.Region (ClusterGetter m);
                           "subnetworks"; subnet]
            end)).
Proof.
  intros Hsub. unfold getSubnetworkPath.
  rewrite getProjectFromSubnet_owning_project, Hsub.
  cbn [deref]. rewrite bind_ret_l. apply index0_Split.
Qed.

Lemma getSubnetworkPath_nil m :
  Subnet (Spec (GCPMachine m)) = None -> getSubnetworkPath m = panic.
Proof. intros Hsub. unfold getSubnetworkPath. now rewrite Hsub. Qed.

(** The network interface builder always returns: the interface, or nil
    when the subnet is set and its alias ranges do not parse. *)
Lemma InstanceNetworkInterfaceSpec_returned m :
  returned (InstanceNetworkInterfaceSpec m)
  = Some
      (let networkInterface :=
         compute.NetworkInterface.mk (getNetworkInterfacePath m) ""
           (match PublicIP (Spec (GCPMachine m)) with
            | Some true =>
                [compute.AccessConfig.mk "ONE_TO_ONE_NAT" "External NAT"]
            | _ => []
            end) [] in
       match Subnet (Spec (GCPMachine m)) with
       | None => Some networkInterface
       | Some subnet =>
           match getInstanceAliasIpRanges m with
           | (aliasIpRanges, None) =>
               Some
                 (compute.NetworkInterface.with_AliasIpRanges aliasIpRanges
                    (compute.NetworkInterface.with_Subnetwork
                       (before ","
                          (match owning_project subnet with
                           | Some _ => subnet
                           | None =>
                               path.Join
                                 ["regions";
                                  ClusterGetter.Region (ClusterGetter m);
                                  "subnetworks"; subnet]
                           end))
                       networkInterface))
           | (_, Some _) => None
           end
       end).
Proof.
  unfold InstanceNetworkInterfaceSpec. rewrite returned_bind.
  cbn [emit returned snd].
  destruct (Subnet (Spec (GCPMachine m))) as [subnet|] eqn:Hsub.
  - rewrite (getSubnetworkPath_set m subnet Hsub), bind_ret_l, returned_bind.
    cbn [emit returned snd].
    destruct (getInstanceAliasIpRanges m) as [ranges [err|]];
      destruct (PublicIP (Spec (GCPMachine m))) as [[|]|]; reflexivity.
  - destruct (PublicIP (Spec (GCPMachine m))) as [[|]|]; reflexivity.
Qed.

Section Builders.

Context `{Imports}.

(** ** The additional disks *)

Lemma additionalDisk_of_typed m disk deviceType :
  infrav1.AttachedDiskSpec.DeviceType disk = Some deviceType ->
  exists d,
    additionalDisk_of m disk = ret d
    /\ disk_as_specified (Zone m) LocalSsdDiskType disk d.
Proof.
  intros Ht. unfold additionalDisk_of. rewrite Ht. cbn [deref].
  rewrite bind_ret_l.
  cbn [compute.AttachedDisk.InitializeParams
       compute.AttachedDiskInitializeParams.DiskType].
  destruct (strings.HasSuffix _ LocalSsdDiskType) eqn:Hs;
    eexists; (split; [reflexivity|]); exists deviceType;
    (split; [exact Ht|]);
    cbv [compute.AttachedDisk.with_Type compute.AttachedDisk.with_Interface
         compute.AttachedDisk.with_InitializeParams
         compute.AttachedDiskInitializeParams.with_DiskSizeGb];
    cbn [compute.AttachedDisk.InitializeParams compute.AttachedDisk.Type_
         compute.AttachedDisk.Interface
         compute.AttachedDiskInitializeParams.DiskType
         compute.AttachedDiskInitializeParams.DiskSizeGb];
    rewrite Hs; (split; [reflexivity|]).
  - repeat split.
  - unfold Int64Deref. repeat split.
Qed.

Lemma additionalDisk_of_untyped m disk :
  infrav1.AttachedDiskSpec.DeviceType disk = None ->
  additionalDisk_of m disk = panic.
Proof. intros Ht. unfold additionalDisk_of. now rewrite Ht. Qed.

Lemma additionalDisks_loop_typed m disks additionalDisks :
  Forall (fun disk => infrav1.AttachedDiskSpec.DeviceType disk <> None) disks ->
  exists ds,
    additionalDisks_loop m disks additionalDisks = ret (additionalDisks ++ ds)
    /\ Forall2 (disk_as_specified (Zone m) LocalSsdDiskType) disks ds.
Proof.
  intros Ht. revert additionalDisks.
  induction Ht as [|disk disks Hd _ IH]; intros additionalDisks.
  - exists []. rewrite app_nil_r. split; [reflexivity | constructor].
  - destruct (infrav1.AttachedDiskSpec.DeviceType disk) as [t|] eqn:Hdt;
      [|contradiction].
    destruct (additionalDisk_of_typed m disk t Hdt) as (d & Hret & Hspec).
    destruct (IH (additionalDisks ++ [d])) as (ds & Hloop & Hall).
    exists (d :: ds). cbn [additionalDisks_loop].
    rewrite Hret, bind_ret_l, Hloop, <- app_assoc.
    split; [reflexivity | now constructor].
Qed.

Lemma additionalDisks_loop_returned m disks additionalDisks r :
  returned (additionalDisks_loop m disks additionalDisks) = Some r ->
  Forall (fun disk => infrav1.AttachedDiskSpec.DeviceType disk <> None) disks.
Proof.
  revert additionalDisks. induction disks as [|disk disks IH];
    intros additionalDisks Hr; [constructor|].
  cbn [additionalDisks_loop] in Hr. rewrite returned_bind in Hr.
  destruct (infrav1.AttachedDiskSpec.DeviceType disk) as [t|] eqn:Hdt.
  - destruct (additionalDisk_of_typed m disk t Hdt) as (d & Hret & _).
    rewrite Hret in Hr. cbn [ret returned snd] in Hr.
    constructor; [congruence | eauto].
  - rewrite (additionalDisk_of_untyped m disk Hdt) in Hr. discriminate.
Qed.

End Builders.

Section Descriptor.

Context `{Imports}.

(** ** The instance descriptor *)

Lemma onHostMaintenance_block_returned policy instance :
  returned (onHostMaintenance_block policy instance)
  = Some (set_OnHostMaintenance (ToUpper policy) instance).
Proof.
  unfold onHostMaintenance_block. rewrite returned_bind.
  destruct (String.eqb policy HostMaintenancePolicyMigrate); [reflexivity|].
  destruct (String.eqb policy HostMaintenancePolicyTerminate); reflexivity.
Qed.

Lemma onHostMaintenance_assignment_only_returned policy instance :
  returned (onHostMaintenance_assignment_only policy instance)
  = Some (set_OnHostMaintenance (ToUpper policy) instance).
Proof. reflexivity. Qed.

(** What [InstanceSpec] returns, field by field, for a host maintenance
    block that returns the instance with the upper-cased policy. *)
Lemma InstanceSpec_around_returned onHostMaintenance m :
  (forall policy instance,
     returned (onHostMaintenance policy instance)
     = Some (set_OnHostMaintenance (ToUpper policy) instance)) ->
  match returned (InstanceAdditionalDiskSpec m) with
  | None => returned (InstanceSpec_around onHostMaintenance m) = None
  | Some additionalDisks =>
      exists instance,
        returned (InstanceSpec_around onHostMaintenance m) = Some instance
        /\ compute.Instance.Name instance = Name m
        /\ compute.Instance.Zone instance = Zone m
        /\ compute.Instance.MachineType instance
           = path.Join ["zones"; Zone m; "machineTypes";
                        InstanceType (Spec (GCPMachine m))]
        /\ compute.Instance.Scheduling instance
           = compute.Scheduling.mk
               (Preemptible (Spec (GCPMachine m)))
               (match OnHostMaintenance (Spec (GCPMachine m)) with
                | Some policy => ToUpper policy
                | None => ""
                end)
        /\ compute.Instance.Disks instance
           = InstanceImageSpec m :: additionalDisks
        /\ compute.Instance.NetworkInterfaces instance
           = match returned (InstanceNetworkInterfaceSpec m) with
             | Some (Some networkInterface) => [networkInterface]
             | _ => []
             end
  end.
Proof.
  intros Hblock. unfold InstanceSpec_around.
  pose proof (InstanceNetworkInterfaceSpec_returned m) as Hni.
  rewrite returned_bind.
  assert (Hfirst : forall instance,
            returned
              match OnHostMaintenance (Spec (GCPMachine m)) with
              | Some policy => onHostMaintenance policy instance
              | None => ret instance
              end
            = Some
                match OnHostMaintenance (Spec (GCPMachine m)) with
                | Some policy => set_OnHostMaintenance (ToUpper policy) instance
                | None => instance
                end).
  { intros instance.
    destruct (OnHostMaintenance (Spec (GCPMachine m))); [apply Hblock|reflexivity]. }
  rewrite Hfirst, returned_bind.
  destruct (returned (InstanceAdditionalDiskSpec m)) as [additionalDisks|];
    [|reflexivity].
  rewrite returned_bind.
  destruct (returned (InstanceNetworkInterfaceSpec m)) as [[ni|]|];
    [| |discriminate];
    (eexists; split; [reflexivity|]);
    destruct (OnHostMaintenance (Spec (GCPMachine m)));
    destruct (IPForwarding (Spec (GCPMachine m))) as [f|];
    try destruct (String.eqb f IPForwardingDisabled);
    destruct (ShieldedInstanceConfig (Spec (GCPMachine m)));
    destruct (ConfidentialCompute (Spec (GCPMachine m)));
    repeat split.
Qed.

End Descriptor.

Section RangeOrder.

Context `{Imports}.

(** ** The order a [range] yields the failure domains in

    Only [Zone] reads the failure domains, and it sorts them. *)

Variable m : MachineScope.t.
Variable fd : list (string * clusterv1.FailureDomainSpec.t).
Hypothesis Hfd : ClusterGetter.FailureDomains (ClusterGetter m) ≡ₚ fd.

Lemma InstanceImageSpec_ranged :
  InstanceImageSpec (ranged fd m) = InstanceImageSpec m.
Proof. unfold InstanceImageSpec. now rewrite (Zone_ranged m fd Hfd). Qed.

Lemma additionalDisk_of_ranged disk :
  additionalDisk_of (ranged fd m) disk = additionalDisk_of m disk.
Proof. unfold additionalDisk_of. now rewrite (Zone_ranged m fd Hfd). Qed.

Lemma additionalDisks_loop_ranged disks additionalDisks :
  additionalDisks_loop (ranged fd m) disks additionalDisks
  = additionalDisks_loop m disks additionalDisks.
Proof.
  revert additionalDisks. induction disks as [|disk disks IH];
    intros additionalDisks; [reflexivity|].
  cbn [additionalDisks_loop]. rewrite additionalDisk_of_ranged.
  destruct (additionalDisk_of m disk) as [w [d|]]; [|reflexivity].
  unfold bind. now rewrite IH.
Qed.

Lemma instance_literal_ranged :
  instance_literal (ranged fd m) = instance_literal m.
Proof. unfold instance_literal. now rewrite (Zone_ranged m fd Hfd). Qed.

Lemma InstanceSpec_around_ranged onHostMaintenance :
  InstanceSpec_around onHostMaintenance (ranged fd m)
  = InstanceSpec_around onHostMaintenance m.
Proof.
  unfold InstanceSpec_around, InstanceAdditionalDiskSpec.
  rewrite instance_literal_ranged, InstanceImageSpec_ranged.
  change (GCPMachine (ranged fd m)) with (GCPMachine m).
  rewrite additionalDisks_loop_ranged.
  reflexivity.
Qed.

End RangeOrder.

Lemma ranged_self m :
  ranged (ClusterGetter.FailureDomains (ClusterGetter m)) m = m.
Proof. now destruct m as [[] ? ?]. Qed.

Section Equivalence.

Context `{Imports}.

Lemma InstanceSpec_around_ext onHostMaintenance onHostMaintenance' m :
  (forall policy instance,
     returned (onHostMaintenance policy instance)
     = returned (onHostMaintenance' policy instance)) ->
  returned (InstanceSpec_around onHostMaintenance m)
  = returned (InstanceSpec_around onHostMaintenance' m).
Proof.
  intros Hext. unfold InstanceSpec_around. rewrite !returned_bind.
  destruct (OnHostMaintenance (Spec (GCPMachine m))) as [policy|];
    [|reflexivity].
  now rewrite Hext.
Qed.

End Equivalence.

(** * The claims of the specification *)

(** ** Alias parsing failures and the descriptor *)

(** C1, as the specification states it, fails: for the subnet
    [my-subnet,aliases=a,aliases=b] alias parsing fails with the multiple
    definitions error, and [InstanceSpec] still returns a descriptor, one
    whose list of network interfaces is empty. *)
Lemma InstanceSpec_alias_failure_returns_descriptor :
  let m := example_scope (Some "my-subnet,aliases=a,aliases=b") in
  snd (getInstanceAliasIpRanges m)
    = Some (ErrMultipleAliasRanges "my-subnet,aliases=a,aliases=b")
  /\ returned (@InstanceSpec upstream m) <> None
  /\ exists instance,
       returned (@InstanceSpec upstream m) = Some instance
       /\ compute.Instance.NetworkInterfaces instance = [].
Proof.
  split; [reflexivity|]. split.
  - vm_compute. discriminate.
  - eexists. split; vm_compute; reflexivity.
Qed.

(** C1, amended: when the alias ranges of the subnet do not parse, the
    network interface builder returns nil, and [InstanceSpec], which has no
    error result, returns a descriptor all the same: it has its name, its
    zone, its machine type path, and as disks the boot disk and behind it
    what [InstanceAdditionalDiskSpec] returns, and no network interface.
    The parse error reaches no caller. *)
Theorem InstanceSpec_alias_failure_drops_interface `{Imports} m :
  snd (getInstanceAliasIpRanges m) <> None ->
  disks_typed m ->
  returned (InstanceNetworkInterfaceSpec m) = Some None
  /\ exists instance additionalDisks,
       returned (InstanceSpec m) = Some instance
       /\ compute.Instance.NetworkInterfaces instance = []
       /\ compute.Instance.Name instance = Name m
       /\ compute.Instance.Zone instance = Zone m
       /\ compute.Instance.MachineType instance
          = path.Join ["zones"; Zone m; "machineTypes";
                       InstanceType (Spec (GCPMachine m))]
       /\ returned (InstanceAdditionalDiskSpec m) = Some additionalDisks
       /\ compute.Instance.Disks instance
          = InstanceImageSpec m :: additionalDisks.
Proof.
  intros Herr Htyped.
  assert (Hni : returned (InstanceNetworkInterfaceSpec m) = Some None).
  { rewrite InstanceNetworkInterfaceSpec_returned. f_equal.
    unfold getInstanceAliasIpRanges in *.
    destruct (Subnet (Spec (GCPMachine m))) as [subnet|]; [|now elim Herr].
    cbv zeta.
    match goal with
    | |- match ?r with _ => _ end = _ => destruct r as [ranges [err|]]
    end; [reflexivity | now elim Herr]. }
  split; [exact Hni|].
  destruct (additionalDisks_loop_typed m _ [] Htyped) as (ds & Hloop & _).
  pose proof (InstanceSpec_around_returned onHostMaintenance_block m
                onHostMaintenance_block_returned) as Hfields.
  unfold InstanceAdditionalDiskSpec in Hfields.
  rewrite Hloop in Hfields. cbn [ret returned snd] in Hfields.
  destruct Hfields
    as (instance & Hret & Hname & Hzone & Htype & _ & Hdisks & Hnis).
  exists instance, ([] ++ ds). rewrite Hni in Hnis.
  unfold InstanceAdditionalDiskSpec. rewrite Hloop.
  repeat split; assumption || reflexivity.
Qed.

Lemma InstanceSpec_alias_failure_drops_interface_witness :
  let m := example_scope (Some "my-subnet,aliases=a:b:c") in
  returned (InstanceNetworkInterfaceSpec m) = Some None
  /\ exists instance additionalDisks,
       returned (@InstanceSpec upstream m) = Some instance
       /\ compute.Instance.NetworkInterfaces instance = []
       /\ compute.Instance.Name instance = Name m
       /\ compute.Instance.Zone instance = Zone m
       /\ compute.Instance.MachineType instance
          = path.Join ["zones"; Zone m; "machineTypes"; "n1-standard-2"]
       /\ returned (@InstanceAdditionalDiskSpec upstream m)
          = Some additionalDisks
       /\ compute.Instance.Disks instance
          = @InstanceImageSpec upstream m :: additionalDisks.
Proof.
  apply (@InstanceSpec_alias_failure_drops_interface upstream).
  - vm_compute. discriminate.
  - repeat constructor; discriminate.
Defined.

(** ** The subnetwork path and the network path *)

(** C2, as the specification states it, fails: the subnet
    [my-subnet,aliases=rangeA:10.0.0.0/24;10.1.0.0/24] contains a slash, in
    its alias ranges, and its subnetwork path is not the subnet up to the
    first comma, [my-subnet], but the path in the cluster's region. *)
Lemma getSubnetworkPath_slash_in_alias_range :
  let subnet := "my-subnet,aliases=rangeA:10.0.0.0/24;10.1.0.0/24" in
  strings.Contains subnet "/" = true
  /\ returned (getSubnetworkPath (example_scope (Some subnet)))
     = Some "regions/us-central1/subnetworks/my-subnet"
  /\ returned (getSubnetworkPath (example_scope (Some subnet)))
     <> Some (before "," subnet).
Proof.
  split; [reflexivity|]. split; [reflexivity|]. vm_compute. discriminate.
Qed.

(** C2, amended: a subnet that carries an owning project, that is one that
    begins with [projects/] and a non-empty segment, is its own subnetwork
    path, up to its first comma.  Every other subnet, also one with a slash
    elsewhere, has the path [path.Join] builds from [regions], the cluster's
    region, [subnetworks] and the subnet, up to the first comma; for a
    subnet without a slash that is none of the empty string, [.] and [..],
    and a region that is a plain path element without a comma, this is
    [regions/<region>/subnetworks/<bare name>]. *)
Theorem getSubnetworkPath_by_owning_project m subnet :
  Subnet (Spec (GCPMachine m)) = Some subnet ->
  let region := ClusterGetter.Region (ClusterGetter m) in
  (forall project,
     owning_project subnet = Some project ->
     getSubnetworkPath m = ret (before "," subnet))
  /\ (owning_project subnet = None ->
      getSubnetworkPath m
      = ret (before "," (path.Join ["regions"; region; "subnetworks"; subnet])))
  /\ (count_byte "/" subnet = 0%nat ->
      subnet <> "" -> subnet <> "." -> subnet <> ".." ->
      plain region -> count_byte "," region = 0%nat ->
      getSubnetworkPath m
      = ret ("regions/" +:+ region +:+ "/subnetworks/" +:+ before "," subnet)).
Proof.
  intros Hsub region. rewrite (getSubnetworkPath_set m subnet Hsub).
  fold region. split; [|split].
  - intros project Hp. now rewrite Hp.
  - intros Hp. now rewrite Hp.
  - intros Hslash H1 H2 H3 Hregion Hcomma.
    assert (Hnone : owning_project subnet = None).
    { unfold owning_project.
      destruct (strings.HasPrefix subnet "projects/") eqn:Hp; [|reflexivity].
      apply HasPrefix_inv in Hp. rewrite Hp, count_byte_app in Hslash.
      discriminate. }
    rewrite Hnone, Join_plain.
    + cbn [strings.Join]. f_equal.
      change ("regions" +:+ "/" +:+ region +:+ "/" +:+ "subnetworks" +:+ "/" +:+ subnet)
        with ("regions/" +:+ region +:+ "/subnetworks/" +:+ subnet).
      rewrite before_app_no_sep by reflexivity.
      rewrite before_app_no_sep by exact Hcomma.
      now rewrite before_app_no_sep by reflexivity.
    + discriminate.
    + repeat constructor; try discriminate; try apply Hregion; assumption.
Qed.

Lemma getSubnetworkPath_by_owning_project_witness :
  let m := example_scope
             (Some "projects/host-proj/regions/us-central1/subnetworks/my-subnet")
  in
  (forall project,
     owning_project
       "projects/host-proj/regions/us-central1/subnetworks/my-subnet"
     = Some project ->
     getSubnetworkPath m
     = ret "projects/host-proj/regions/us-central1/subnetworks/my-subnet")
  /\ (owning_project "my-subnet,aliases=10.0.0.0/24" = None ->
      getSubnetworkPath (example_scope (Some "my-subnet,aliases=10.0.0.0/24"))
      = ret "regions/us-central1/subnetworks/my-subnet")
  /\ getSubnetworkPath (example_scope (Some "my-subnet"))
     = ret "regions/us-central1/subnetworks/my-subnet".
Proof.
  split; [|split].
  - apply (getSubnetworkPath_by_owning_project
             (example_scope
                (Some "projects/host-proj/regions/us-central1/subnetworks/my-subnet"))
             _ eq_refl).
  - apply (getSubnetworkPath_by_owning_project
             (example_scope (Some "my-subnet,aliases=10.0.0.0/24"))
             _ eq_refl).
  - apply (getSubnetworkPath_by_owning_project
             (example_scope (Some "my-subnet")) _ eq_refl);
      try reflexivity; try discriminate.
    repeat split; try discriminate.
Defined.

(** C7, as the specification states it, fails: the subnet below carries
    the owning project [..], which is not the cluster's project, and the
    network path is not [projects/../global/networks/default] but what
    [path.Join] cleans it to, [global/networks/default]. *)
Lemma getNetworkInterfacePath_dotdot_project :
  let subnet := "projects/../regions/us-central1/subnetworks/my-subnet" in
  let m := example_scope (Some subnet) in
  getProjectFromSubnet m = Some ".."
  /\ owning_project subnet = Some ".."
  /\ ".." <> ClusterGetter.Project (ClusterGetter m)
  /\ getNetworkInterfacePath m = "global/networks/default"
  /\ getNetworkInterfacePath m
     <> "projects/" +:+ ".." +:+ "/global/networks/"
        +:+ ClusterGetter.NetworkName (ClusterGetter m).
Proof. repeat split; try reflexivity; vm_compute; discriminate. Qed.

(** A project segment that does not lead the subnet is no owning project:
    the network stays in the cluster's project. *)
Example getNetworkInterfacePath_inner_projects :
  let subnet := "host/projects/host-proj/regions/us-central1/subnetworks/s" in
  let m := example_scope (Some subnet) in
  getProjectFromSubnet m = None
  /\ getNetworkInterfacePath m
     = "projects/workload-proj/global/networks/default".
Proof. split; reflexivity. Qed.

(** C7, amended: the owning project of a subnet is the segment behind a
    leading [projects/], up to the next slash, when it is not empty.  The
    network path is what [path.Join] makes of [projects], a project,
    [global], [networks] and the cluster's network name: the project is the
    owning project of the subnet when there is one and it is not the
    cluster's project, and the cluster's project otherwise.  When that
    project and the network name are plain path elements, the path reads
    [projects/<project>/global/networks/<network>]. *)
Theorem getNetworkInterfacePath_owning_project m :
  let project := ClusterGetter.Project (ClusterGetter m) in
  let network := ClusterGetter.NetworkName (ClusterGetter m) in
  let owner :=
    match Subnet (Spec (GCPMachine m)) with
    | Some subnet => owning_project subnet
    | None => None
    end in
  (forall subnetProject,
     owner = Some subnetProject -> subnetProject <> project ->
     getNetworkInterfacePath m
     = path.Join ["projects"; subnetProject; "global"; "networks"; network]
     /\ (plain subnetProject -> plain network ->
         getNetworkInterfacePath m
         = "projects/" +:+ subnetProject +:+ "/global/networks/" +:+ network))
  /\ (owner = None \/ owner = Some project ->
      getNetworkInterfacePath m
      = path.Join ["projects"; project; "global"; "networks"; network]
      /\ (plain project -> plain network ->
          getNetworkInterfacePath m
          = "projects/" +:+ project +:+ "/global/networks/" +:+ network)).
Proof.
  intros project network owner.
  assert (Hliteral : forall p, plain p -> plain network ->
            path.Join ["projects"; p; "global"; "networks"; network]
            = "projects/" +:+ p +:+ "/global/networks/" +:+ network).
  { intros p Hp Hn. rewrite Join_plain.
    - reflexivity.
    - discriminate.
    - repeat constructor; try discriminate; try apply Hp; apply Hn. }
  unfold getNetworkInterfacePath.
  rewrite getProjectFromSubnet_owning_project. fold owner project network.
  split.
  - intros subnetProject -> Hne.
    apply String.eqb_neq in Hne. rewrite String.eqb_sym in Hne.
    rewrite Hne. cbn [negb]. split; [reflexivity | apply Hliteral].
  - intros [-> | ->].
    + split; [reflexivity | apply Hliteral].
    + rewrite String.eqb_refl. cbn [negb].
      split; [reflexivity | apply Hliteral].
Qed.

(** The shared VPC example of the specification. *)
Example shared_vpc_example :
  let m := example_scope
             (Some "projects/host-proj/regions/us-central1/subnetworks/my-subnet")
  in
  getNetworkInterfacePath m = "projects/host-proj/global/networks/default"
  /\ getSubnetworkPath m
     = ret "projects/host-proj/regions/us-central1/subnetworks/my-subnet".
Proof. split; reflexivity. Qed.

(** The bare subnet example of the specification. *)
Example bare_subnet_example :
  let m := example_scope
             (Some "my-subnet,aliases=rangeA:10.0.0.0/24;10.1.0.0/24") in
  getSubnetworkPath m = ret "regions/us-central1/subnetworks/my-subnet"
  /\ getInstanceAliasIpRanges m
     = ([compute.AliasIpRange.mk "rangeA" "10.0.0.0/24";
         compute.AliasIpRange.mk "" "10.1.0.0/24"], None).
Proof. split; reflexivity. Qed.

(** The absent subnet example of the specification. *)
Example absent_subnet_example :
  returned (InstanceNetworkInterfaceSpec (example_scope None))
  = Some (Some (compute.NetworkInterface.mk
                  "projects/workload-proj/global/networks/default" "" [] [])).
Proof. reflexivity. Qed.

(** ** The host maintenance policy *)

(** C3: with a host maintenance policy in the specification, the scheduling
    block of the descriptor has the upper-cased policy, whichever branch of
    the switch ran; the switch with the final assignment and the final
    assignment alone return the same instance, from the block and from the
    whole of [InstanceSpec], which returns when no additional disk lacks its
    device type. *)
Theorem OnHostMaintenance_final_assignment_wins `{Imports} m policy :
  OnHostMaintenance (Spec (GCPMachine m)) = Some policy ->
  (forall instance,
     returned (onHostMaintenance_block policy instance)
     = returned (onHostMaintenance_assignment_only policy instance)
     /\ exists instance',
          returned (onHostMaintenance_block policy instance) = Some instance'
          /\ compute.Scheduling.OnHostMaintenance
               (compute.Instance.Scheduling instance')
             = ToUpper policy)
  /\ returned (InstanceSpec m) = returned (InstanceSpec_assignment_only m)
  /\ (forall instance,
        returned (InstanceSpec m) = Some instance ->
        compute.Scheduling.OnHostMaintenance
          (compute.Instance.Scheduling instance)
        = ToUpper policy)
  /\ (disks_typed m -> exists instance, returned (InstanceSpec m) = Some instance).
Proof.
  intros Hpolicy.
  pose proof (InstanceSpec_around_returned onHostMaintenance_block m
                onHostMaintenance_block_returned) as Hfields.
  fold (InstanceSpec m) in Hfields. rewrite Hpolicy in Hfields.
  split; [|split; [|split]].
  - intros instance. rewrite onHostMaintenance_block_returned.
    split; [reflexivity|]. eexists. split; reflexivity.
  - apply InstanceSpec_around_ext. intros p i.
    now rewrite onHostMaintenance_block_returned.
  - intros instance Hret.
    destruct (returned (InstanceAdditionalDiskSpec m)); [|congruence].
    destruct Hfields as (instance' & Hret' & _ & _ & _ & Hsched & _).
    assert (instance' = instance) as -> by congruence.
    now rewrite Hsched.
  - intros Htyped.
    destruct (additionalDisks_loop_typed m _ [] Htyped) as (ds & Hloop & _).
    unfold InstanceAdditionalDiskSpec in Hfields. rewrite Hloop in Hfields.
    destruct Hfields as (instance & Hret & _). eauto.
Qed.

Lemma OnHostMaintenance_final_assignment_wins_witness :
  let m := example_scope None in
  returned (@InstanceSpec upstream m)
  = returned (@InstanceSpec_assignment_only upstream m)
  /\ (forall instance,
        returned (@InstanceSpec upstream m) = Some instance ->
        compute.Scheduling.OnHostMaintenance
          (compute.Instance.Scheduling instance)
        = "MIGRATE")
  /\ (disks_typed m ->
      exists instance, returned (@InstanceSpec upstream m) = Some instance).
Proof.
  apply (@OnHostMaintenance_final_assignment_wins upstream
           (example_scope None) "Migrate").
  reflexivity.
Defined.

(** The switch is visible in what is logged only: an unknown policy is
    reported, and upper-cased all the same. *)
Example unknown_policy_is_logged :
  @onHostMaintenance_block upstream "Restart" (@instance_literal upstream (example_scope None))
  = ([LogError "Invalid value" "Unknown OnHostMaintenance value"
               "Spec.OnHostMaintenance" "Restart"],
     Some (set_OnHostMaintenance "RESTART"
             (@instance_literal upstream (example_scope None)))).
Proof. reflexivity. Qed.

(** ** The alias range grammar *)

(** C4, as the specification states it, fails: the subnet below has one
    marker, and the alias block behind it two entries, neither with a
    colon; parsing returns one range, for the text before the comma in the
    first entry. *)
Lemma getInstanceAliasIpRanges_comma_in_alias_block :
  let subnet := "my-subnet,aliases=10.0.0.0/24,10.1.0.0/24;10.2.0.0/24" in
  let entries := strings.Split (after_substr subnet marker) ";" in
  strings.Count subnet marker = 1%nat
  /\ entries = ["10.0.0.0/24,10.1.0.0/24"; "10.2.0.0/24"]
  /\ Forall (fun e => (count_byte ":" e <= 1)%nat) entries
  /\ getInstanceAliasIpRanges (example_scope (Some subnet))
     = ([compute.AliasIpRange.mk "" "10.0.0.0/24"], None)
  /\ getInstanceAliasIpRanges (example_scope (Some subnet))
     <> (map entry_range entries, None).
Proof.
  repeat split; try reflexivity.
  - repeat constructor.
  - vm_compute. discriminate.
Qed.

(** C4, amended: for a subnet with exactly one marker that does not itself
    begin with [aliases=], the entries are the pieces between semicolons of
    the text from the marker to the next comma, or to the end.  When none of
    them has more than one colon, parsing returns one range for each, in
    their order: the entry as the range and no name for an entry without a
    colon, the text before the colon as the name and the text behind it as
    the range for an entry with one.  When one of them has two colons or
    more, parsing fails with the invalid alias range error for the first
    such entry, and returns no range. *)
Theorem getInstanceAliasIpRanges_one_marker m subnet :
  Subnet (Spec (GCPMachine m)) = Some subnet ->
  strings.Count subnet marker = 1%nat ->
  strings.HasPrefix subnet "aliases=" = false ->
  let entries := strings.Split (before "," (after_substr subnet marker)) ";" in
  (Forall (fun e => (count_byte ":" e <= 1)%nat) entries ->
   getInstanceAliasIpRanges m = (map entry_range entries, None)
   /\ length (fst (getInstanceAliasIpRanges m)) = length entries)
  /\ (Exists (fun e => (2 <= count_byte ":" e)%nat) entries ->
      exists r,
        first_malformed entries = Some r
        /\ In r entries /\ (2 <= count_byte ":" r)%nat
        /\ getInstanceAliasIpRanges m = ([], Some (ErrInvalidAliasRange r))).
Proof.
  intros Hsub Hcount Hstart entries.
  rewrite (getInstanceAliasIpRanges_marked m subnet Hsub Hcount Hstart).
  cbv zeta. fold entries. split.
  - intros Hall. apply first_malformed_None in Hall. rewrite Hall.
    split; [reflexivity|]. apply length_map.
  - intros Hex. destruct (first_malformed entries) as [r|] eqn:Hr.
    + exists r. destruct (first_malformed_Some _ _ Hr). auto.
    + apply first_malformed_None in Hr. apply Exists_exists in Hex as (e & He & Hc).
      rewrite Forall_forall in Hr. specialize (Hr e He). lia.
Qed.

Lemma getInstanceAliasIpRanges_one_marker_witness :
  (Forall (fun e => (count_byte ":" e <= 1)%nat) ["rangeA:10.0.0.0/24"; "10.1.0.0/24"] ->
   getInstanceAliasIpRanges
     (example_scope (Some "my-subnet,aliases=rangeA:10.0.0.0/24;10.1.0.0/24"))
   = ([compute.AliasIpRange.mk "rangeA" "10.0.0.0/24";
       compute.AliasIpRange.mk "" "10.1.0.0/24"], None)
   /\ length (fst (getInstanceAliasIpRanges
                     (example_scope
                        (Some "my-subnet,aliases=rangeA:10.0.0.0/24;10.1.0.0/24"))))
      = 2%nat)
  /\ (Exists (fun e => (2 <= count_byte ":" e)%nat) ["x"; "a:b:c"; "d::e"] ->
      exists r,
        first_malformed ["x"; "a:b:c"; "d::e"] = Some r
        /\ In r ["x"; "a:b:c"; "d::e"] /\ (2 <= count_byte ":" r)%nat
        /\ getInstanceAliasIpRanges
             (example_scope (Some "my-subnet,aliases=x;a:b:c;d::e"))
           = ([], Some (ErrInvalidAliasRange r))).
Proof.
  split.
  - apply (getInstanceAliasIpRanges_one_marker
             (example_scope (Some "my-subnet,aliases=rangeA:10.0.0.0/24;10.1.0.0/24"))
             _ eq_refl eq_refl eq_refl).
  - apply (getInstanceAliasIpRanges_one_marker
             (example_scope (Some "my-subnet,aliases=x;a:b:c;d::e"))
             _ eq_refl eq_refl eq_refl).
Defined.

(** Why the amended C4 leaves out a subnet that begins with [aliases=]: its
    first piece is parsed in place of the text behind the marker.  Below,
    the only entry behind the marker has two colons, and parsing succeeds
    with the range of the first piece. *)
Example getInstanceAliasIpRanges_subnet_begins_with_aliases :
  let subnet := "aliases=x,aliases=a:b:c" in
  let entries := strings.Split (before "," (after_substr subnet marker)) ";" in
  strings.Count subnet marker = 1%nat
  /\ strings.HasPrefix subnet "aliases=" = true
  /\ entries = ["a:b:c"]
  /\ first_malformed entries = Some "a:b:c"
  /\ getInstanceAliasIpRanges (example_scope (Some subnet))
     = ([compute.AliasIpRange.mk "" "x"], None).
Proof. repeat split; reflexivity. Qed.

(** C5: a subnet in which the marker occurs more than once does not parse:
    the multiple definitions error, and no range. *)
Theorem getInstanceAliasIpRanges_multiple_markers m subnet :
  Subnet (Spec (GCPMachine m)) = Some subnet ->
  (1 < occurrences subnet marker)%nat ->
  getInstanceAliasIpRanges m = ([], Some (ErrMultipleAliasRanges subnet))
  /\ (1 < strings.Count subnet marker)%nat.
Proof.
  intros Hsub Ho. split.
  - now apply getInstanceAliasIpRanges_multiple.
  - now rewrite Count_marker.
Qed.

Lemma getInstanceAliasIpRanges_multiple_markers_witness :
  getInstanceAliasIpRanges (example_scope (Some "my-subnet,aliases=a,aliases=b"))
  = ([], Some (ErrMultipleAliasRanges "my-subnet,aliases=a,aliases=b"))
  /\ (1 < strings.Count "my-subnet,aliases=a,aliases=b" marker)%nat.
Proof.
  apply (getInstanceAliasIpRanges_multiple_markers
           (example_scope (Some "my-subnet,aliases=a,aliases=b")) _ eq_refl).
  vm_compute. lia.
Defined.

(** C6: a subnet with the marker in it parses to an error or to one range at
    least, never to no range; were the loop over its pieces to end without
    a range, the unable to parse error would be returned. *)
Theorem getInstanceAliasIpRanges_marker_some_range m subnet :
  Subnet (Spec (GCPMachine m)) = Some subnet ->
  strings.Contains subnet marker = true ->
  ((exists err, getInstanceAliasIpRanges m = ([], Some err))
   \/ (exists range ranges, getInstanceAliasIpRanges m = (range :: ranges, None)))
  /\ ((strings.Count subnet marker <= 1)%nat ->
      subnetSlice_loop (strings.Split subnet ",") [] = ([], None) ->
      getInstanceAliasIpRanges m = ([], Some (ErrUnableToParse subnet))).
Proof.
  intros Hsub Hc. unfold getInstanceAliasIpRanges. rewrite Hsub.
  fold marker. rewrite Hc. cbn [negb].
  destruct (1 <? strings.Count subnet marker)%nat eqn:Hcount.
  - split; [left; eauto|]. apply Nat.ltb_lt in Hcount. lia.
  - destruct (subnetSlice_loop (strings.Split subnet ",") [])
      as [[|range ranges] [err|]]; split; eauto; discriminate.
Qed.

Lemma getInstanceAliasIpRanges_marker_some_range_witness :
  let subnet := "my-subnet,aliases=rangeA:10.0.0.0/24;10.1.0.0/24" in
  let m := example_scope (Some subnet) in
  ((exists err, getInstanceAliasIpRanges m = ([], Some err))
   \/ (exists range ranges, getInstanceAliasIpRanges m = (range :: ranges, None)))
  /\ ((strings.Count subnet marker <= 1)%nat ->
      subnetSlice_loop (strings.Split subnet ",") [] = ([], None) ->
      getInstanceAliasIpRanges m = ([], Some (ErrUnableToParse subnet))).
Proof.
  apply (getInstanceAliasIpRanges_marker_some_range
           (example_scope
              (Some "my-subnet,aliases=rangeA:10.0.0.0/24;10.1.0.0/24"))
           _ eq_refl).
  reflexivity.
Defined.

(** With the marker in the subnet the loop over its pieces does not end
    without a range or an error: the unable to parse error is never
    returned. *)
Lemma subnetSlice_loop_marker subnet ranges :
  strings.Contains subnet marker = true ->
  subnetSlice_loop (strings.Split subnet ",") ranges <> ([], None).
Proof.
  intros Hc. destruct (after_substr_spec _ _ Hc) as [a Ha].
  set (rest := after_substr subnet marker) in *. clearbody rest. subst subnet.
  change (a +:+ marker +:+ rest) with (a +:+ String "," ("aliases=" +:+ rest)).
  rewrite Split_app_sep, (Split_before_after ("aliases=" +:+ rest)).
  rewrite before_app_no_sep by reflexivity.
  induction (strings.Split a ",") as [|p pieces IH].
  - cbn [app subnetSlice_loop]. rewrite HasPrefix_app, aliasRanges_loop_spec.
    destruct (first_malformed _); [discriminate|].
    pose proof (Split_not_nil
                  (strings.TrimPrefix ("aliases=" +:+ before "," rest) "aliases=")
                  ";") as Hne.
    destruct (strings.Split _ ";"); [contradiction|].
    destruct ranges; discriminate.
  - cbn [app subnetSlice_loop].
    destruct (strings.HasPrefix p "aliases="); [|exact IH].
    rewrite aliasRanges_loop_spec.
    destruct (first_malformed _); [discriminate|].
    pose proof (Split_not_nil (strings.TrimPrefix p "aliases=") ";") as Hne.
    destruct (strings.Split _ ";"); [contradiction|].
    destruct ranges; discriminate.
Qed.

(** ** The additional disks *)

(** When every additional disk names its device type, one disk is built
    for each, in their order, with the disk type path of the zone and device
    type; a disk whose path ends in the local SSD type has 375 GB, the
    category SCRATCH and the NVME interface whatever size was requested, and
    any other disk the requested size, or 30 GB when none was. *)
Theorem InstanceAdditionalDiskSpec_as_specified `{Imports} m :
  disks_typed m ->
  exists additionalDisks,
    InstanceAdditionalDiskSpec m = ret additionalDisks
    /\ Forall2 (disk_as_specified (Zone m) LocalSsdDiskType)
               (AdditionalDisks (Spec (GCPMachine m))) additionalDisks.
Proof.
  intros Htyped.
  destruct (additionalDisks_loop_typed m _ [] Htyped) as (ds & Hloop & Hall).
  exists ds. split; [exact Hloop | exact Hall].
Qed.

Lemma InstanceAdditionalDiskSpec_as_specified_witness :
  exists additionalDisks,
    @InstanceAdditionalDiskSpec upstream (example_scope None) = ret additionalDisks
    /\ Forall2 (disk_as_specified "us-central1-a" "local-ssd")
         [infrav1.AttachedDiskSpec.mk (Some "local-ssd") (Some 100%Z);
          infrav1.AttachedDiskSpec.mk (Some "pd-ssd") None]
         additionalDisks.
Proof.
  apply (@InstanceAdditionalDiskSpec_as_specified upstream (example_scope None)).
  repeat constructor; discriminate.
Defined.

(** The disks of the example: the local SSD is built with 375 GB for the
    100 GB requested, the other disk with the default 30 GB. *)
Example additional_disks_example :
  @InstanceAdditionalDiskSpec upstream (example_scope None)
  = ret [compute.AttachedDisk.mk true false
           (compute.AttachedDiskInitializeParams.mk 375
              "zones/us-central1-a/diskTypes/local-ssd" "")
           "SCRATCH" "NVME";
         compute.AttachedDisk.mk true false
           (compute.AttachedDiskInitializeParams.mk 30
              "zones/us-central1-a/diskTypes/pd-ssd" "")
           "" ""].
Proof. reflexivity. Qed.

(** A disk without a device type is a nil dereference: nothing is built. *)
Lemma InstanceAdditionalDiskSpec_returned `{Imports} m additionalDisks :
  returned (InstanceAdditionalDiskSpec m) = Some additionalDisks ->
  disks_typed m.
Proof. apply additionalDisks_loop_returned. Qed.

(** ** Determinism *)

(** C9: the descriptor, and all that is written on the way, is a function of
    the machine, the specification and the cluster: two calls that range
    over the same failure domains in two orders return equal descriptors. *)
Theorem InstanceSpec_range_order_independent `{Imports} m fd fd' :
  ClusterGetter.FailureDomains (ClusterGetter m) ≡ₚ fd ->
  ClusterGetter.FailureDomains (ClusterGetter m) ≡ₚ fd' ->
  InstanceSpec (ranged fd m) = InstanceSpec (ranged fd' m)
  /\ returned (InstanceSpec (ranged fd m))
     = returned (InstanceSpec (ranged fd' m)).
Proof.
  intros Hfd Hfd'. unfold InstanceSpec.
  rewrite (InstanceSpec_around_ranged m fd Hfd),
    (InstanceSpec_around_ranged m fd' Hfd').
  split; reflexivity.
Qed.

Lemma InstanceSpec_range_order_independent_witness :
  let a := ("us-central1-a", clusterv1.FailureDomainSpec.mk true ∅) in
  let b := ("us-central1-b", clusterv1.FailureDomainSpec.mk true ∅) in
  @InstanceSpec upstream (ranged [b; a] (example_scope None))
  = @InstanceSpec upstream (ranged [a; b] (example_scope None))
  /\ returned (@InstanceSpec upstream (ranged [b; a] (example_scope None)))
     = returned (@InstanceSpec upstream (ranged [a; b] (example_scope None))).
Proof.
  apply (@InstanceSpec_range_order_independent upstream (example_scope None)).
  - reflexivity.
  - apply perm_swap.
Defined.

(** ** The zone *)

(** C10: the zone is the failure domain of the machine when it has one;
    otherwise the smallest of the cluster's failure domain names in
    byte-wise lexicographic order, and the empty string when the cluster has
    none.  The descriptor has that zone as its zone, in its machine type
    path and in the disk type path of each of its disks. *)
Theorem Zone_smallest_failure_domain `{Imports} m :
  let names := failure_domain_names (ClusterGetter m) in
  (forall failureDomain,
     clusterv1.Machine.FailureDomain (Machine m) = Some failureDomain ->
     Zone m = failureDomain)
  /\ (clusterv1.Machine.FailureDomain (Machine m) = None ->
      (names = [] -> Zone m = "")
      /\ (names <> [] ->
          In (Zone m) names /\ forall z, In z names -> String.le (Zone m) z))
  /\ (forall instance,
        returned (InstanceSpec m) = Some instance ->
        compute.Instance.Zone instance = Zone m
        /\ compute.Instance.MachineType instance
           = path.Join ["zones"; Zone m; "machineTypes";
                        InstanceType (Spec (GCPMachine m))]
        /\ Forall
             (fun d =>
                exists diskType,
                  compute.AttachedDiskInitializeParams.DiskType
                    (compute.AttachedDisk.InitializeParams d)
                  = path.Join ["zones"; Zone m; "diskTypes"; diskType])
             (compute.Instance.Disks instance))
  /\ (disks_typed m -> exists instance, returned (InstanceSpec m) = Some instance).
Proof.
  intros names. split; [|split; [|split]].
  - intros failureDomain Hfd. now rewrite Zone_unfold, Hfd.
  - intros Hfd. rewrite Zone_unfold, Hfd. fold names. split.
    + now intros ->.
    + intros Hne. destruct (sort.Strings names) as [|zone zones] eqn:Hs.
      * now apply Strings_nil in Hs.
      * now apply Strings_head in Hs.
  - intros instance Hret.
    pose proof (InstanceSpec_around_returned onHostMaintenance_block m
                  onHostMaintenance_block_returned) as Hfields.
    fold (InstanceSpec m) in Hfields. rewrite Hret in Hfields.
    destruct (returned (InstanceAdditionalDiskSpec m)) as [ds|] eqn:Hds;
      [|discriminate].
    destruct Hfields as (i & [= <-] & _ & Hzone & Htype & _ & Hdisks & _).
    split; [exact Hzone|]. split; [exact Htype|].
    rewrite Hdisks. constructor.
    + eexists. reflexivity.
    + pose proof (InstanceAdditionalDiskSpec_returned m ds Hds) as Htyped.
      destruct (additionalDisks_loop_typed m _ [] Htyped) as (ds' & Hloop & Hall).
      unfold InstanceAdditionalDiskSpec in Hds. rewrite Hloop in Hds.
      injection Hds as <-. cbn [app].
      clear -Hall. induction Hall as [|disk d disks ds' Hd _ IH];
        constructor; [|exact IH].
      destruct Hd as (t & _ & Ht & _). eauto.
  - intros Htyped.
    pose proof (InstanceSpec_around_returned onHostMaintenance_block m
                  onHostMaintenance_block_returned) as Hfields.
    destruct (additionalDisks_loop_typed m _ [] Htyped) as (ds & Hloop & _).
    unfold InstanceAdditionalDiskSpec in Hfields. rewrite Hloop in Hfields.
    destruct Hfields as (instance & Hret & _). eauto.
Qed.

(** The zone of the example cluster, whose failure domains are ranged over
    in the order b, a. *)
Example zone_example :
  Zone (example_scope None) = "us-central1-a"
  /\ compute.Instance.MachineType
       <$> returned (@InstanceSpec upstream (example_scope None))
     = Some "zones/us-central1-a/machineTypes/n1-standard-2".
Proof. split; reflexivity. Qed.

(** * Further properties of the machine scope *)

(** ** The alias range parser *)

Lemma subnetSlice_loop_error pieces ranges ranges' err :
  subnetSlice_loop pieces ranges = (ranges', Some err) ->
  ranges' = []
  /\ exists r, err = ErrInvalidAliasRange r /\ (2 <= count_byte ":" r)%nat.
Proof.
  induction pieces as [|p pieces IH]; cbn [subnetSlice_loop]; [discriminate|].
  destruct (strings.HasPrefix p "aliases="); [|exact IH].
  rewrite aliasRanges_loop_spec.
  destruct (first_malformed _) as [r|] eqn:Hr; [|discriminate].
  intros [= <- <-]. split; [reflexivity|].
  exists r. split; [reflexivity|]. now apply first_malformed_Some in Hr.
Qed.

(** X1: an error comes without ranges, and only from a subnet with the marker
    in it: the multiple definitions error for that subnet, or the invalid
    alias range error for an entry with two colons or more.  The unable to
    parse error is never returned. *)
Theorem getInstanceAliasIpRanges_error m ranges err :
  getInstanceAliasIpRanges m = (ranges, Some err) ->
  ranges = []
  /\ exists subnet,
       Subnet (Spec (GCPMachine m)) = Some subnet
       /\ strings.Contains subnet marker = true
       /\ (err = ErrMultipleAliasRanges subnet
           /\ (1 < strings.Count subnet marker)%nat
           \/ exists r,
                err = ErrInvalidAliasRange r /\ (2 <= count_byte ":" r)%nat).
Proof.
  unfold getInstanceAliasIpRanges.
  destruct (Subnet (Spec (GCPMachine m))) as [subnet|]; [|discriminate].
  fold marker.
  destruct (strings.Contains subnet marker) eqn:Hc; [|discriminate].
  cbn [negb].
  destruct (1 <? strings.Count subnet marker)%nat eqn:Hcount.
  - intros [= <- <-]. split; [reflexivity|]. exists subnet.
    apply Nat.ltb_lt in Hcount. auto.
  - destruct (subnetSlice_loop (strings.Split subnet ",") [])
      as [ranges' [err'|]] eqn:Hloop.
    + intros [= <- <-]. split; [reflexivity|]. exists subnet.
      apply subnetSlice_loop_error in Hloop as (_ & r & -> & Hr). eauto 6.
    + destruct ranges'; [|discriminate].
      now destruct (subnetSlice_loop_marker subnet [] Hc).
Qed.

Lemma getInstanceAliasIpRanges_error_witness :
  [] = @nil compute.AliasIpRange.t
  /\ exists subnet,
       Subnet (Spec (GCPMachine (example_scope (Some "s,aliases=a:b:c"))))
       = Some subnet
       /\ strings.Contains subnet marker = true
       /\ (ErrInvalidAliasRange "a:b:c" = ErrMultipleAliasRanges subnet
           /\ (1 < strings.Count subnet marker)%nat
           \/ exists r,
                ErrInvalidAliasRange "a:b:c" = ErrInvalidAliasRange r
                /\ (2 <= count_byte ":" r)%nat).
Proof.
  apply (getInstanceAliasIpRanges_error
           (example_scope (Some "s,aliases=a:b:c"))
           [] (ErrInvalidAliasRange "a:b:c")).
  reflexivity.
Defined.

(** X2: parsing succeeds without a range exactly when there is no subnet or the
    subnet has no marker in it. *)
Theorem getInstanceAliasIpRanges_empty m :
  getInstanceAliasIpRanges m = ([], None)
  <-> match Subnet (Spec (GCPMachine m)) with
      | None => True
      | Some subnet => occurrences subnet marker = 0%nat
      end.
Proof.
  unfold getInstanceAliasIpRanges.
  destruct (Subnet (Spec (GCPMachine m))) as [subnet|]; [|easy].
  fold marker.
  pose proof (Contains_occurrences subnet marker) as Hco.
  destruct (strings.Contains subnet marker) eqn:Hc; cbn [negb].
  - assert (0 < occurrences subnet marker)%nat by now apply Hco.
    split; [|lia].
    destruct (1 <? strings.Count subnet marker)%nat; [discriminate|].
    pose proof (subnetSlice_loop_marker subnet [] Hc) as Hloop.
    destruct (subnetSlice_loop (strings.Split subnet ",") [])
      as [[|range ranges] [err|]]; try discriminate; try now elim Hloop.
  - split; [|reflexivity]. intros _.
    destruct (occurrences subnet marker); [reflexivity|].
    assert (false = true) by (apply Hco; lia). discriminate.
Qed.

Lemma count_byte_piece c sep s piece :
  In piece (strings.Split s sep) ->
  count_byte sep piece = 0%nat
  /\ (count_byte c piece <= count_byte c s)%nat.
Proof.
  revert piece. induction s as [|a s IH]; intros piece.
  - intros [<-|[]]. split; reflexivity.
  - rewrite Split_unfold. destruct (Ascii.eqb a sep) eqn:Ha.
    + intros [<-|Hin].
      * split; [reflexivity|]. cbn [count_byte]. lia.
      * destruct (IH piece Hin). split; [assumption|]. cbn [count_byte]. lia.
    + pose proof (Split_not_nil s sep).
      destruct (strings.Split s sep) as [|p ps] eqn:Hs; [contradiction|].
      intros [<-|Hin].
      * destruct (IH p (or_introl eq_refl)) as [H1 H2].
        cbn [count_byte]. rewrite Ha. split; lia.
      * destruct (IH piece (or_intror Hin)). split; [assumption|].
        cbn [count_byte]. lia.
Qed.

Lemma count_byte_drop c n s :
  (count_byte c (strings.drop n s) <= count_byte c s)%nat.
Proof.
  revert s. induction n as [|n IH]; intros [|a s]; cbn [strings.drop];
    try lia.
  specialize (IH s). cbn [count_byte]. lia.
Qed.

Lemma count_byte_TrimPrefix c s prefix :
  (count_byte c (strings.TrimPrefix s prefix) <= count_byte c s)%nat.
Proof.
  unfold strings.TrimPrefix.
  destruct (strings.HasPrefix s prefix); [apply count_byte_drop | lia].
Qed.

Lemma count_byte_before c sep s :
  (count_byte c (before sep s) <= count_byte c s)%nat.
Proof.
  induction s as [|a s IH]; [reflexivity|].
  cbn [before count_byte]. destruct (Ascii.eqb a sep); cbn [count_byte]; lia.
Qed.

Lemma count_byte_after c sep s :
  (count_byte c (after sep s) <= count_byte c s)%nat.
Proof.
  induction s as [|a s IH]; [reflexivity|].
  cbn [after count_byte]. destruct (Ascii.eqb a sep); lia.
Qed.

Lemma count_byte_before_sep sep s : count_byte sep (before sep s) = 0%nat.
Proof.
  induction s as [|a s IH]; [reflexivity|].
  cbn [before]. destruct (Ascii.eqb a sep) eqn:Ha; [reflexivity|].
  cbn [count_byte]. now rewrite Ha.
Qed.

Lemma count_byte_after_sep sep s :
  count_byte sep (after sep s) = (count_byte sep s - 1)%nat.
Proof.
  induction s as [|a s IH]; [reflexivity|].
  cbn [after count_byte]. destruct (Ascii.eqb a sep) eqn:Ha; [lia|].
  rewrite IH. lia.
Qed.

(** A byte that a string does not have, none of the ranges of its entries
    has; and no range has a colon. *)
Lemma entry_range_bytes c entry :
  (count_byte ":" entry <= 1)%nat ->
  let range := entry_range entry in
  count_byte ":" (compute.AliasIpRange.SubnetworkRangeName range) = 0%nat
  /\ count_byte ":" (compute.AliasIpRange.IpCidrRange range) = 0%nat
  /\ (count_byte c (compute.AliasIpRange.SubnetworkRangeName range)
      <= count_byte c entry)%nat
  /\ (count_byte c (compute.AliasIpRange.IpCidrRange range)
      <= count_byte c entry)%nat.
Proof.
  intros Hcolon. unfold entry_range.
  destruct (count_byte ":" entry =? 0)%nat eqn:Hz;
    cbn [compute.AliasIpRange.SubnetworkRangeName
         compute.AliasIpRange.IpCidrRange].
  - apply Nat.eqb_eq in Hz. repeat split; cbn [count_byte]; lia.
  - rewrite count_byte_before_sep, count_byte_after_sep.
    pose proof (count_byte_before c ":" entry).
    pose proof (count_byte_after c ":" entry).
    repeat split; lia.
Qed.

Lemma subnetSlice_loop_bytes pieces ranges :
  Forall (fun p => count_byte "," p = 0%nat) pieces ->
  subnetSlice_loop pieces [] = (ranges, None) ->
  Forall
    (fun range =>
       let name := compute.AliasIpRange.SubnetworkRangeName range in
       let cidr := compute.AliasIpRange.IpCidrRange range in
       count_byte ":" name = 0%nat /\ count_byte ":" cidr = 0%nat
       /\ count_byte ";" name = 0%nat /\ count_byte ";" cidr = 0%nat
       /\ count_byte "," name = 0%nat /\ count_byte "," cidr = 0%nat)
    ranges.
Proof.
  induction 1 as [|p pieces Hp _ IH]; cbn [subnetSlice_loop].
  - intros [= <-]. constructor.
  - destruct (strings.HasPrefix p "aliases="); [|exact IH].
    rewrite aliasRanges_loop_spec.
    destruct (first_malformed _) eqn:Hm; [discriminate|].
    intros [= <-]. cbn [app].
    apply first_malformed_None in Hm.
    apply Forall_forall. intros range Hin.
    apply list_elem_of_In, in_map_iff in Hin as (entry & <- & Hin).
    rewrite Forall_forall in Hm.
    pose proof (Hm entry (proj2 (list_elem_of_In _ _) Hin)) as Hcolon.
    destruct (count_byte_piece "," ";" _ _ Hin) as [Hsemi Hcomma].
    pose proof (count_byte_TrimPrefix "," p "aliases=") as Htrim.
    destruct (entry_range_bytes ":" entry Hcolon) as (H1 & H2 & _).
    destruct (entry_range_bytes ";" entry Hcolon) as (_ & _ & H3 & H4).
    destruct (entry_range_bytes "," entry Hcolon) as (_ & _ & H5 & H6).
    cbv zeta in *. repeat split; lia.
Qed.

(** X3: the ranges parsing returns are free of the separators of the grammar:
    neither a name nor a range has a colon, a semicolon or a comma. *)
Theorem getInstanceAliasIpRanges_no_separator m ranges :
  getInstanceAliasIpRanges m = (ranges, None) ->
  Forall
    (fun range =>
       let name := compute.AliasIpRange.SubnetworkRangeName range in
       let cidr := compute.AliasIpRange.IpCidrRange range in
       count_byte ":" name = 0%nat /\ count_byte ":" cidr = 0%nat
       /\ count_byte ";" name = 0%nat /\ count_byte ";" cidr = 0%nat
       /\ count_byte "," name = 0%nat /\ count_byte "," cidr = 0%nat)
    ranges.
Proof.
  unfold getInstanceAliasIpRanges.
  destruct (Subnet (Spec (GCPMachine m))) as [subnet|];
    [|intros [= <-]; constructor].
  destruct (negb (strings.Contains subnet ",aliases="));
    [intros [= <-]; constructor|].
  destruct (1 <? strings.Count subnet ",aliases=")%nat; [discriminate|].
  destruct (subnetSlice_loop (strings.Split subnet ",") [])
    as [ranges' [err|]] eqn:Hloop; [discriminate|].
  destruct (length ranges' =? 0)%nat; [discriminate|].
  intros [= <-]. revert Hloop. apply subnetSlice_loop_bytes.
  apply Forall_forall. intros p Hin. apply list_elem_of_In in Hin.
  now destruct (count_byte_piece "," "," _ _ Hin).
Qed.

Lemma getInstanceAliasIpRanges_no_separator_witness :
  Forall
    (fun range =>
       let name := compute.AliasIpRange.SubnetworkRangeName range in
       let cidr := compute.AliasIpRange.IpCidrRange range in
       count_byte ":" name = 0%nat /\ count_byte ":" cidr = 0%nat
       /\ count_byte ";" name = 0%nat /\ count_byte ";" cidr = 0%nat
       /\ count_byte "," name = 0%nat /\ count_byte "," cidr = 0%nat)
    [compute.AliasIpRange.mk "rangeA" "10.0.0.0/24";
     compute.AliasIpRange.mk "" "10.1.0.0/24"].
Proof.
  apply (getInstanceAliasIpRanges_no_separator
           (example_scope
              (Some "my-subnet,aliases=rangeA:10.0.0.0/24;10.1.0.0/24"))).
  reflexivity.
Defined.

(** ** The owning project and the subnetwork path *)

Lemma before_rest sep s :
  exists rest,
    s = before sep s +:+ rest
    /\ (rest = "" \/ strings.HasPrefix rest (String sep "") = true).
Proof.
  destruct (Nat.eq_dec (count_byte sep s) 0) as [Hz|Hnz].
  - exists "". rewrite before_no_sep, app_empty_r by exact Hz. auto.
  - exists (String sep (after sep s)). split.
    + now apply before_sep_after.
    + right. cbn [strings.HasPrefix]. now rewrite Ascii.eqb_refl.
Qed.

(** X4: the project [getProjectFromSubnet] returns is the segment between a
    leading [projects/] and the next slash or the end of the subnet, and it
    is returned for no other subnet: it is not empty, and whatever follows
    it, alias ranges too, does not matter. *)
Theorem getProjectFromSubnet_segment m project :
  getProjectFromSubnet m = Some project
  <-> exists subnet rest,
        Subnet (Spec (GCPMachine m)) = Some subnet
        /\ subnet = "projects/" +:+ project +:+ rest
        /\ project <> ""
        /\ count_byte "/" project = 0%nat
        /\ (rest = "" \/ strings.HasPrefix rest "/" = true).
Proof.
  rewrite getProjectFromSubnet_owning_project.
  destruct (Subnet (Spec (GCPMachine m))) as [subnet|].
  - unfold owning_project. split.
    + destruct (strings.HasPrefix subnet "projects/") eqn:Hp; [|discriminate].
      apply HasPrefix_inv in Hp.
      set (t := strings.drop (String.length "projects/") subnet) in *.
      clearbody t. subst subnet. rewrite TrimPrefix_app.
      destruct (String.eqb (before "/" t) "") eqn:He; [discriminate|].
      intros [= <-]. destruct (before_rest "/" t) as (rest & Ht & Hrest).
      exists ("projects/" +:+ t), rest. split; [reflexivity|].
      split; [now rewrite Ht at 1|].
      split; [now apply String.eqb_neq|].
      split; [apply count_byte_before_sep | exact Hrest].
    + intros (subnet' & rest & [= <-] & -> & Hne & Hslash & Hrest).
      rewrite HasPrefix_app, TrimPrefix_app.
      rewrite before_app_no_sep by exact Hslash.
      assert (before "/" rest = "") as ->.
      { destruct Hrest as [-> | Hrest]; [reflexivity|].
        apply HasPrefix_inv in Hrest. now rewrite Hrest. }
      rewrite app_empty_r.
      apply String.eqb_neq in Hne. now rewrite Hne.
  - split; [discriminate|]. now intros (? & ? & [=] & _).
Qed.

(** X5: [getSubnetworkPath] panics exactly when there is no subnet; the path it
    returns has no comma in it, and it writes nothing. *)
Theorem getSubnetworkPath_no_comma m :
  (returned (getSubnetworkPath m) = None
   <-> Subnet (Spec (GCPMachine m)) = None)
  /\ written (getSubnetworkPath m) = []
  /\ forall p,
       returned (getSubnetworkPath m) = Some p -> count_byte "," p = 0%nat.
Proof.
  destruct (Subnet (Spec (GCPMachine m))) as [subnet|] eqn:Hsub.
  - rewrite (getSubnetworkPath_set m subnet Hsub).
    split; [split; discriminate|]. split; [reflexivity|].
    intros p [= <-]. apply count_byte_before_sep.
  - rewrite (getSubnetworkPath_nil m Hsub).
    split; [split; reflexivity|]. split; [reflexivity | discriminate].
Qed.

(** ** The network interface *)

Lemma InstanceNetworkInterfaceSpec_nil m :
  returned (InstanceNetworkInterfaceSpec m) = Some None
  <-> snd (getInstanceAliasIpRanges m) <> None.
Proof.
  rewrite InstanceNetworkInterfaceSpec_returned. cbv zeta.
  destruct (Subnet (Spec (GCPMachine m))) as [subnet|] eqn:Hsub.
  - destruct (getInstanceAliasIpRanges m) as [ranges [err|]]; cbn [snd].
    + split; [discriminate | reflexivity].
    + split; [discriminate | now intros []].
  - assert (Hnil : getInstanceAliasIpRanges m = ([], None))
      by (unfold getInstanceAliasIpRanges; now rewrite Hsub).
    rewrite Hnil. cbn [snd]. split; [discriminate | now intros []].
Qed.

(** X6: the network interface builder never panics.  It returns nil exactly
    when parsing the alias ranges returns an error; otherwise the interface
    has the network path, the alias ranges parsed, the subnetwork path of a
    subnet that is set and the empty one else, and an external NAT access
    configuration exactly when the specification asks for a public IP. *)
Theorem InstanceNetworkInterfaceSpec_interface m :
  (returned (InstanceNetworkInterfaceSpec m) = Some None
   <-> snd (getInstanceAliasIpRanges m) <> None)
  /\ (snd (getInstanceAliasIpRanges m) = None ->
      exists networkInterface,
        returned (InstanceNetworkInterfaceSpec m) = Some (Some networkInterface)
        /\ compute.NetworkInterface.Network networkInterface
           = getNetworkInterfacePath m
        /\ compute.NetworkInterface.AliasIpRanges networkInterface
           = fst (getInstanceAliasIpRanges m)
        /\ returned (getSubnetworkPath m)
           = match Subnet (Spec (GCPMachine m)) with
             | Some _ =>
                 Some (compute.NetworkInterface.Subnetwork networkInterface)
             | None => None
             end
        /\ (Subnet (Spec (GCPMachine m)) = None ->
            compute.NetworkInterface.Subnetwork networkInterface = "")
        /\ compute.NetworkInterface.AccessConfigs networkInterface
           = match PublicIP (Spec (GCPMachine m)) with
             | Some true =>
                 [compute.AccessConfig.mk "ONE_TO_ONE_NAT" "External NAT"]
             | _ => []
             end).
Proof.
  rewrite InstanceNetworkInterfaceSpec_returned. cbv zeta.
  destruct (Subnet (Spec (GCPMachine m))) as [subnet|] eqn:Hsub.
  - rewrite (getSubnetworkPath_set m subnet Hsub).
    destruct (getInstanceAliasIpRanges m) as [ranges [err|]]; cbn [fst snd].
    + split; [split; [discriminate | reflexivity] | discriminate].
    + split; [split; [discriminate | now intros []]|].
      intros _. eexists. split; [reflexivity|].
      repeat split. discriminate.
  - assert (Hnil : getInstanceAliasIpRanges m = ([], None))
      by (unfold getInstanceAliasIpRanges; now rewrite Hsub).
    rewrite Hnil, (getSubnetworkPath_nil m Hsub). cbn [fst snd].
    split; [split; [discriminate | now intros []]|].
    intros _. eexists. split; [reflexivity|]. repeat split.
Qed.

(** X7: what the network interface builder writes: the line with the network
    path, and behind it the line with the subnetwork path when the subnet
    is set, also when its alias ranges do not parse. *)
Theorem InstanceNetworkInterfaceSpec_written m :
  written (InstanceNetworkInterfaceSpec m)
  = Printf ("#### InstanceNetworkInterfaceSpec networkInterface: "
            +:+ getNetworkInterfacePath m +:+ LF)
    :: match returned (getSubnetworkPath m) with
       | Some subnetwork =>
           [Printf ("#### InstanceNetworkInterfaceSpec subnet is set: "
                    +:+ subnetwork +:+ LF)]
       | None => []
       end.
Proof.
  unfold InstanceNetworkInterfaceSpec.
  destruct (Subnet (Spec (GCPMachine m))) as [subnet|] eqn:Hsub.
  - rewrite (getSubnetworkPath_set m subnet Hsub), bind_ret_l.
    destruct (getInstanceAliasIpRanges m) as [ranges [err|]];
      destruct (PublicIP (Spec (GCPMachine m))) as [[|]|]; reflexivity.
  - rewrite (getSubnetworkPath_nil m Hsub).
    destruct (PublicIP (Spec (GCPMachine m))) as [[|]|]; reflexivity.
Qed.

(** ** Suffixes, and the last element of a path *)

Lemma drop_split n s : exists a, s = a +:+ strings.drop n s.
Proof.
  revert s. induction n as [|n IH]; intros s; [now exists ""|].
  destruct s as [|c s]; [now exists ""|].
  destruct (IH s) as [a Ha]. exists (String c a).
  rewrite app_String. cbn [strings.drop]. now f_equal.
Qed.

Lemma HasSuffix_iff s suffix :
  strings.HasSuffix s suffix = true <-> exists a, s = a +:+ suffix.
Proof.
  unfold strings.HasSuffix. split.
  - intros Hs. apply andb_prop in Hs as [_ Hs]. apply String.eqb_eq in Hs.
    destruct (drop_split (String.length s - String.length suffix) s) as [a Ha].
    exists a. now rewrite Hs in Ha.
  - intros [a ->]. rewrite length_app.
    replace (String.length a + String.length suffix - String.length suffix)%nat
      with (String.length a) by lia.
    rewrite drop_app, String.eqb_refl, andb_true_r.
    apply Nat.leb_le. lia.
Qed.

(** A suffix without a slash of a path is a suffix of its last element. *)
Lemma HasSuffix_last_element x t suffix :
  count_byte "/" suffix = 0%nat ->
  strings.HasSuffix (x +:+ String "/" t) suffix = strings.HasSuffix t suffix.
Proof.
  intros Hslash.
  assert (Hiff : strings.HasSuffix (x +:+ String "/" t) suffix = true
                 <-> strings.HasSuffix t suffix = true).
  { rewrite !HasSuffix_iff. split.
    - intros [a Ha]. revert a Ha. induction x as [|c x IH]; intros a Ha.
      + rewrite app_empty_l in Ha. destruct a as [|c a].
        * rewrite app_empty_l in Ha. rewrite <- Ha in Hslash. discriminate.
        * rewrite app_String in Ha. injection Ha as _ Ha. eauto.
      + rewrite app_String in Ha. destruct a as [|c' a].
        * rewrite app_empty_l in Ha. rewrite <- Ha in Hslash.
          cbn [count_byte] in Hslash. rewrite count_byte_app in Hslash.
          cbn [count_byte] in Hslash. rewrite Ascii.eqb_refl in Hslash. lia.
        * rewrite app_String in Ha. injection Ha as _ Ha. eauto.
    - intros [a ->]. exists (x +:+ String "/" a).
      now rewrite app_assoc', app_String. }
  destruct (strings.HasSuffix (x +:+ String "/" t) suffix),
    (strings.HasSuffix t suffix); try reflexivity.
  - symmetry. now apply Hiff.
  - now apply Hiff.
Qed.

Lemma Join_snoc elems e e' sep :
  strings.Join (elems ++ [e; e']) sep
  = strings.Join (elems ++ [e]) sep +:+ sep +:+ e'.
Proof.
  induction elems as [|x elems IH]; [reflexivity|].
  cbn [app]. destruct elems as [|y elems].
  - cbn [app strings.Join]. now rewrite !app_assoc'.
  - cbn [app] in *. rewrite !Join_cons, IH, !app_assoc'. reflexivity.
Qed.

(** Whatever the elements before them are, [path.Join] ends in its last two
    elements when they are plain. *)
Lemma Join_last_elements e0 e1 e e' :
  e0 <> "" -> count_byte "/" e0 = 0%nat -> plain e -> plain e' ->
  exists x, path.Join [e0; e1; e; e'] = x +:+ String "/" e'.
Proof.
  intros He0 Hslash0 He He'.
  destruct e0 as [|c e0]; [contradiction|].
  cbn [count_byte] in Hslash0.
  destruct (Ascii.eqb c "/") eqn:Hc; [discriminate|].
  unfold path.Join. cbn [fold_left].
  pose proof (fold_size_ge [e1; e; e'] (0 + String.length (String c e0))) as Hsize.
  cbn [String.length fold_left] in *.
  destruct (Nat.eqb_spec
    (0 + S (String.length e0) + String.length e1 + String.length e
     + String.length e')%nat 0) as [Hz|_]; [lia|].
  change (path.join_buf "" [String c e0; e1; e; e'])
    with (path.join_buf (String c e0) [e1; e; e']).
  rewrite join_buf_nonempty by discriminate.
  rewrite !Join_cons. cbn [strings.Join].
  set (b := String c e0 +:+ "/" +:+ e1).
  replace (String c e0 +:+ "/" +:+ e1 +:+ "/" +:+ e +:+ "/" +:+ e')
    with (b +:+ String "/" (e +:+ String "/" e'))
    by (unfold b; now rewrite !app_assoc').
  unfold path.Clean.
  assert (Hshape : exists u, b +:+ String "/" (e +:+ String "/" e') = String c u)
    by (unfold b; rewrite !app_String; eauto).
  destruct Hshape as [u Hu].
  assert (Hempty : String.eqb (b +:+ String "/" (e +:+ String "/" e')) "" = false)
    by now rewrite Hu.
  assert (Hrooted : strings.HasPrefix (b +:+ String "/" (e +:+ String "/" e')) "/" = false)
    by (rewrite Hu; cbn [strings.HasPrefix]; now rewrite Hc).
  rewrite Hempty, Hrooted, !Split_app_sep.
  rewrite (Split_no_sep e) by apply He.
  rewrite (Split_no_sep e') by apply He'.
  rewrite app_assoc, !fold_left_app. cbn [fold_left].
  rewrite !step_plain by assumption. cbn [path.out rev].
  set (out := path.out _).
  rewrite <- !app_assoc. cbn [app].
  destruct (rev out ++ [e; e']) eqn:Hr.
  - apply (f_equal (@length _)) in Hr. rewrite List.length_app in Hr.
    cbn [length] in Hr. lia.
  - rewrite <- Hr, Join_snoc.
    exists (strings.Join (rev out ++ [e]) "/"). reflexivity.
Qed.

Lemma count_byte_ReplaceAll old new s :
  count_byte old new = 0%nat -> count_byte old (ReplaceAll s old new) = 0%nat.
Proof.
  intros Hnew. induction s as [|c s IH]; [reflexivity|].
  cbn [ReplaceAll]. destruct (Ascii.eqb c old) eqn:Hc.
  - rewrite count_byte_app. lia.
  - cbn [count_byte]. rewrite Hc. exact IH.
Qed.

Section Disks.

Context `{Imports}.

(** ** The boot disk *)

(** X8: the boot disk is a boot disk that is deleted with the instance, of the
    root device size and, unless the specification names a root device
    type, of the standard type.  Its image is the image of the
    specification; without one, the image family; without both, the family
    [capi-ubuntu-1804-k8s-<version>] in the cluster's project, where the
    version token has no dot left in it. *)
Theorem InstanceImageSpec_image m :
  let spec := Spec (GCPMachine m) in
  let disk := InstanceImageSpec m in
  let params := compute.AttachedDisk.InitializeParams disk in
  compute.AttachedDisk.Boot disk = true
  /\ compute.AttachedDisk.AutoDelete disk = true
  /\ compute.AttachedDiskInitializeParams.DiskSizeGb params
     = RootDeviceSize spec
  /\ compute.AttachedDiskInitializeParams.DiskType params
     = path.Join ["zones"; Zone m; "diskTypes";
                  match RootDeviceType spec with
                  | Some t => t
                  | None => PdStandardDiskType
                  end]
  /\ (forall image,
        Image spec = Some image ->
        compute.AttachedDiskInitializeParams.SourceImage params = image)
  /\ (forall family,
        Image spec = None -> ImageFamily spec = Some family ->
        compute.AttachedDiskInitializeParams.SourceImage params = family)
  /\ (Image spec = None -> ImageFamily spec = None ->
      exists version,
        count_byte "." version = 0%nat
        /\ compute.AttachedDiskInitializeParams.SourceImage params
           = path.Join ["projects"; ClusterGetter.Project (ClusterGetter m);
                        "global"; "images"; "family";
                        "capi-ubuntu-1804-k8s-" +:+ version]).
Proof.
  intros spec disk params. subst disk params. unfold InstanceImageSpec.
  fold spec.
  cbn [compute.AttachedDisk.Boot compute.AttachedDisk.AutoDelete
       compute.AttachedDisk.InitializeParams
       compute.AttachedDiskInitializeParams.DiskSizeGb
       compute.AttachedDiskInitializeParams.DiskType
       compute.AttachedDiskInitializeParams.SourceImage].
  repeat (split; [reflexivity|]).
  split; [|split].
  - intros image ->. reflexivity.
  - intros family -> ->. reflexivity.
  - intros -> ->. eexists. split; [|reflexivity].
    now apply count_byte_ReplaceAll.
Qed.

(** ** The additional disks *)

Lemma additionalDisk_of_flags m disk d :
  additionalDisk_of m disk = ret d ->
  compute.AttachedDisk.AutoDelete d = true
  /\ compute.AttachedDisk.Boot d = false
  /\ compute.AttachedDiskInitializeParams.SourceImage
       (compute.AttachedDisk.InitializeParams d) = "".
Proof.
  unfold additionalDisk_of.
  destruct (infrav1.AttachedDiskSpec.DeviceType disk) as [t|]; [|discriminate].
  cbn [deref]. rewrite bind_ret_l.
  destruct (strings.HasSuffix _ LocalSsdDiskType); intros [= <-];
    repeat split.
Qed.

(** The loop over the disks returns, for typed disks, one disk for each,
    with whatever every single disk is built with. *)
Lemma additionalDisks_loop_Forall2
    (P : infrav1.AttachedDiskSpec.t -> compute.AttachedDisk.t -> Prop)
    m disks additionalDisks :
  (forall disk d, additionalDisk_of m disk = ret d -> P disk d) ->
  Forall (fun disk => infrav1.AttachedDiskSpec.DeviceType disk <> None) disks ->
  exists ds,
    additionalDisks_loop m disks additionalDisks = ret (additionalDisks ++ ds)
    /\ Forall2 P disks ds.
Proof.
  intros HP Ht. revert additionalDisks.
  induction Ht as [|disk disks Hd _ IH]; intros additionalDisks.
  - exists []. rewrite app_nil_r. split; [reflexivity | constructor].
  - destruct (infrav1.AttachedDiskSpec.DeviceType disk) as [t|] eqn:Hdt;
      [|contradiction].
    destruct (additionalDisk_of_typed m disk t Hdt) as (d & Hret & _).
    destruct (IH (additionalDisks ++ [d])) as (ds & Hloop & Hall).
    exists (d :: ds). cbn [additionalDisks_loop].
    rewrite Hret, bind_ret_l, Hloop, <- app_assoc.
    split; [reflexivity | constructor; auto].
Qed.

Lemma additionalDisks_loop_written m disks additionalDisks :
  written (additionalDisks_loop m disks additionalDisks) = [].
Proof.
  revert additionalDisks. induction disks as [|disk disks IH];
    intros additionalDisks; [reflexivity|].
  cbn [additionalDisks_loop].
  destruct (infrav1.AttachedDiskSpec.DeviceType disk) as [t|] eqn:Hdt.
  - destruct (additionalDisk_of_typed m disk t Hdt) as (d & -> & _).
    rewrite bind_ret_l. apply IH.
  - now rewrite (additionalDisk_of_untyped m disk Hdt).
Qed.

(** X9: [InstanceAdditionalDiskSpec] panics, on a nil dereference, exactly when
    an additional disk has no device type, and writes nothing.  When it
    returns, there is one disk for each disk of the specification, each
    deleted with the instance, none a boot disk, none with a source
    image. *)
Theorem InstanceAdditionalDiskSpec_nil_device_type m :
  (returned (InstanceAdditionalDiskSpec m) = None <-> ~ disks_typed m)
  /\ written (InstanceAdditionalDiskSpec m) = []
  /\ forall additionalDisks,
       returned (InstanceAdditionalDiskSpec m) = Some additionalDisks ->
       length additionalDisks
       = length (AdditionalDisks (Spec (GCPMachine m)))
       /\ Forall
            (fun d =>
               compute.AttachedDisk.AutoDelete d = true
               /\ compute.AttachedDisk.Boot d = false
               /\ compute.AttachedDiskInitializeParams.SourceImage
                    (compute.AttachedDisk.InitializeParams d) = "")
            additionalDisks.
Proof.
  unfold InstanceAdditionalDiskSpec. split; [|split].
  - split.
    + intros Hnone Htyped.
      destruct (additionalDisks_loop_typed m _ [] Htyped) as (ds & Hloop & _).
      rewrite Hloop in Hnone. discriminate.
    + intros Hnot.
      destruct (returned (additionalDisks_loop m _ [])) eqn:Hr; [|reflexivity].
      elim Hnot. eapply additionalDisks_loop_returned. exact Hr.
  - apply additionalDisks_loop_written.
  - intros additionalDisks Hr.
    pose proof (additionalDisks_loop_returned m _ _ _ Hr) as Htyped.
    destruct (additionalDisks_loop_Forall2 _ m _ []
                (additionalDisk_of_flags m) Htyped) as (ds & Hloop & Hall).
    rewrite Hloop in Hr. injection Hr as <-. cbn [app]. split.
    + symmetry. eapply Forall2_length. exact Hall.
    + clear -Hall. induction Hall; constructor; auto.
Qed.

Lemma additionalDisk_of_device_type m disk d :
  count_byte "/" LocalSsdDiskType = 0%nat ->
  additionalDisk_of m disk = ret d ->
  disk_by_device_type LocalSsdDiskType disk d.
Proof.
  intros Hslash Hret t Ht Hplain. cbv zeta.
  destruct (additionalDisk_of_typed m disk t Ht) as (d' & Hret' & Hspec).
  rewrite Hret' in Hret. injection Hret as ->.
  destruct Hspec as (t' & Ht' & Htype & Hcase).
  assert (t' = t) as -> by congruence.
  destruct (Join_last_elements "zones" (Zone m) "diskTypes" t)
    as [x Hx]; try easy.
  rewrite Htype, Hx, HasSuffix_last_element in Hcase by exact Hslash.
  destruct (strings.HasSuffix t LocalSsdDiskType); exact Hcase.
Qed.

(** X10: which disk gets the local SSD treatment is told by its device type
    alone, whatever the zone: for a local SSD type name without a slash, a
    disk with a plain device type is a 375 GB scratch disk behind the NVME
    interface exactly when its device type ends in that name, and has the
    requested size, or 30 GB, otherwise. *)
Theorem InstanceAdditionalDiskSpec_by_device_type m :
  count_byte "/" LocalSsdDiskType = 0%nat ->
  disks_typed m ->
  exists additionalDisks,
    InstanceAdditionalDiskSpec m = ret additionalDisks
    /\ Forall2 (disk_by_device_type LocalSsdDiskType)
               (AdditionalDisks (Spec (GCPMachine m))) additionalDisks.
Proof.
  intros Hslash Htyped.
  destruct (additionalDisks_loop_Forall2
              (disk_by_device_type LocalSsdDiskType) m _ []
              (fun disk d => additionalDisk_of_device_type m disk d Hslash)
              Htyped) as (ds & Hloop & Hall).
  exists ds. split; [exact Hloop | exact Hall].
Qed.

End Disks.

Lemma InstanceAdditionalDiskSpec_by_device_type_witness :
  exists additionalDisks,
    @InstanceAdditionalDiskSpec upstream (example_scope None) = ret additionalDisks
    /\ Forall2 (disk_by_device_type "local-ssd")
         [infrav1.AttachedDiskSpec.mk (Some "local-ssd") (Some 100%Z);
          infrav1.AttachedDiskSpec.mk (Some "pd-ssd") None]
         additionalDisks.
Proof.
  apply (@InstanceAdditionalDiskSpec_by_device_type upstream (example_scope None)).
  - reflexivity.
  - repeat constructor; discriminate.
Defined.

Section DescriptorFields.

Context `{Imports}.

(** ** The other fields of the descriptor *)

Lemma written_bind {A B} (m : M A) (k : A -> M B) :
  written (bind m k)
  = written m ++ match returned m with
                 | Some a => written (k a)
                 | None => []
                 end.
Proof.
  destruct m as [w [a|]]; unfold bind, written, returned; cbn.
  - now destruct (k a).
  - now rewrite app_nil_r.
Qed.

Lemma fold_append_map {A B} (f : A -> B) (l : list A) (acc : list B) :
  fold_left (fun items x => items ++ [f x]) l acc = acc ++ map f l.
Proof.
  revert acc. induction l as [|x l IH]; intros acc; cbn [fold_left map].
  - now rewrite app_nil_r.
  - now rewrite IH, <- app_assoc.
Qed.

(** What [InstanceSpec] returns in the fields that neither zone, disks nor
    network decide. *)
Lemma InstanceSpec_around_returned_rest onHostMaintenance m instance :
  (forall policy instance,
     returned (onHostMaintenance policy instance)
     = Some (set_OnHostMaintenance (ToUpper policy) instance)) ->
  returned (InstanceSpec_around onHostMaintenance m) = Some instance ->
  compute.Instance.Tags instance = compute.Instance.Tags (instance_literal m)
  /\ compute.Instance.Labels instance
     = compute.Instance.Labels (instance_literal m)
  /\ compute.Instance.CanIpForward instance
     = match IPForwarding (Spec (GCPMachine m)) with
       | Some f => negb (String.eqb f IPForwardingDisabled)
       | None => true
       end
  /\ compute.Instance.ShieldedInstanceConfig instance
     = option_map shieldedInstanceConfig_of
         (ShieldedInstanceConfig (Spec (GCPMachine m)))
  /\ compute.Instance.ConfidentialInstanceConfig instance
     = option_map
         (fun c => compute.ConfidentialInstanceConfig.mk
                     (String.eqb c ConfidentialComputePolicyEnabled))
         (ConfidentialCompute (Spec (GCPMachine m)))
  /\ compute.Instance.Metadata instance
     = Some (InstanceAdditionalMetadataSpec m)
  /\ compute.Instance.ServiceAccounts instance
     = [InstanceServiceAccountsSpec m].
Proof.
  intros Hblock. unfold InstanceSpec_around.
  pose proof (InstanceNetworkInterfaceSpec_returned m) as Hni.
  rewrite returned_bind.
  assert (Hfirst : forall instance,
            returned
              match OnHostMaintenance (Spec (GCPMachine m)) with
              | Some policy => onHostMaintenance policy instance
              | None => ret instance
              end
            = Some
                match OnHostMaintenance (Spec (GCPMachine m)) with
                | Some policy => set_OnHostMaintenance (ToUpper policy) instance
                | None => instance
                end).
  { intros i.
    destruct (OnHostMaintenance (Spec (GCPMachine m))); [apply Hblock|reflexivity]. }
  rewrite Hfirst, returned_bind.
  destruct (returned (InstanceAdditionalDiskSpec m)) as [additionalDisks|];
    [|discriminate].
  rewrite returned_bind.
  destruct (returned (InstanceNetworkInterfaceSpec m)) as [[ni|]|];
    [| |discriminate];
    intros [= <-];
    destruct (OnHostMaintenance (Spec (GCPMachine m)));
    destruct (IPForwarding (Spec (GCPMachine m))) as [f|];
    try destruct (String.eqb f IPForwardingDisabled);
    destruct (ShieldedInstanceConfig (Spec (GCPMachine m)));
    destruct (ConfidentialCompute (Spec (GCPMachine m)));
    repeat split.
Qed.

Lemma InstanceSpec_returned_typed m :
  returned (InstanceSpec m) = None <-> ~ disks_typed m.
Proof.
  pose proof (InstanceSpec_around_returned onHostMaintenance_block m
                onHostMaintenance_block_returned) as Hfields.
  fold (InstanceSpec m) in Hfields. split.
  - intros Hnone Htyped.
    destruct (additionalDisks_loop_typed m _ [] Htyped) as (ds & Hloop & _).
    unfold InstanceAdditionalDiskSpec in Hfields. rewrite Hloop in Hfields.
    destruct Hfields as (i & Hret & _). congruence.
  - intros Hnot.
    destruct (returned (InstanceAdditionalDiskSpec m)) as [ds|] eqn:Hds;
      [|exact Hfields].
    elim Hnot. eapply additionalDisks_loop_returned. exact Hds.
Qed.

(** X11: [InstanceSpec] panics exactly when an additional disk has no device
    type.  The descriptor it returns otherwise lists the boot disk first and
    behind it the additional disks, one for each of the specification, in
    their order; only the first disk is a boot disk. *)
Theorem InstanceSpec_disks m :
  (returned (InstanceSpec m) = None <-> ~ disks_typed m)
  /\ forall instance,
       returned (InstanceSpec m) = Some instance ->
       exists additionalDisks,
         returned (InstanceAdditionalDiskSpec m) = Some additionalDisks
         /\ compute.Instance.Disks instance
            = InstanceImageSpec m :: additionalDisks
         /\ length (compute.Instance.Disks instance)
            = S (length (AdditionalDisks (Spec (GCPMachine m))))
         /\ Forall (fun d => compute.AttachedDisk.Boot d = false)
                   additionalDisks.
Proof.
  split; [apply InstanceSpec_returned_typed|].
  intros instance Hret.
  pose proof (InstanceSpec_around_returned onHostMaintenance_block m
                onHostMaintenance_block_returned) as Hfields.
  fold (InstanceSpec m) in Hfields. rewrite Hret in Hfields.
  destruct (returned (InstanceAdditionalDiskSpec m)) as [ds|] eqn:Hds;
    [|discriminate].
  destruct Hfields as (i & [= <-] & _ & _ & _ & _ & Hdisks & _).
  exists ds. split; [reflexivity|]. split; [exact Hdisks|].
  pose proof (additionalDisks_loop_returned m _ _ _ Hds) as Htyped.
  destruct (additionalDisks_loop_Forall2 _ m _ []
              (additionalDisk_of_flags m) Htyped) as (ds' & Hloop & Hall).
  unfold InstanceAdditionalDiskSpec in Hds. rewrite Hloop in Hds.
  injection Hds as <-. cbn [app]. split.
  - rewrite Hdisks. cbn [length]. f_equal. symmetry.
    eapply Forall2_length. exact Hall.
  - clear -Hall. induction Hall as [|? ? ? ? (_ & Hb & _)]; constructor; auto.
Qed.

(** X12: the tags of the descriptor are the additional network tags of the
    specification, in their order, and behind them the tag of the cluster
    and role and the tag of the cluster; the role is [control-plane] or
    [node]. *)
Theorem InstanceSpec_tags m instance :
  returned (InstanceSpec m) = Some instance ->
  let cluster := ClusterGetter.Name (ClusterGetter m) in
  exists role,
    (role = "control-plane" /\ IsControlPlaneMachine (Machine m) = true
     \/ role = "node" /\ IsControlPlaneMachine (Machine m) = false)
    /\ compute.Tags.Items (compute.Instance.Tags instance)
       = AdditionalNetworkTags (Spec (GCPMachine m))
         ++ [cluster +:+ "-" +:+ role; cluster].
Proof.
  intros Hret cluster.
  destruct (InstanceSpec_around_returned_rest onHostMaintenance_block m
              instance onHostMaintenance_block_returned Hret) as (-> & _).
  exists (Role m). split; [|reflexivity].
  unfold Role. destruct (IsControlPlaneMachine (Machine m)); auto.
Qed.

(** X13: the descriptor forwards IP unless the specification disables it, and
    has a confidential instance configuration exactly when the
    specification has a confidential compute policy: enabled by the enabled
    policy, off for any other value. *)
Theorem InstanceSpec_forwarding_confidential m instance :
  returned (InstanceSpec m) = Some instance ->
  (compute.Instance.CanIpForward instance = false
   <-> IPForwarding (Spec (GCPMachine m)) = Some IPForwardingDisabled)
  /\ (compute.Instance.ConfidentialInstanceConfig instance = None
      <-> ConfidentialCompute (Spec (GCPMachine m)) = None)
  /\ forall policy,
       ConfidentialCompute (Spec (GCPMachine m)) = Some policy ->
       compute.Instance.ConfidentialInstanceConfig instance
       = Some (compute.ConfidentialInstanceConfig.mk
                 (bool_decide (policy = ConfidentialComputePolicyEnabled))).
Proof.
  intros Hret.
  destruct (InstanceSpec_around_returned_rest onHostMaintenance_block m
              instance onHostMaintenance_block_returned Hret)
    as (_ & _ & -> & _ & -> & _).
  split; [|split].
  - destruct (IPForwarding (Spec (GCPMachine m))) as [f|]; [|easy].
    destruct (String.eqb_spec f IPForwardingDisabled) as [->|Hne];
      cbn [negb]; split; congruence.
  - destruct (ConfidentialCompute (Spec (GCPMachine m))); easy.
  - intros policy ->. cbn [option_map]. do 2 f_equal.
    destruct (String.eqb_spec policy ConfidentialComputePolicyEnabled);
      [now rewrite bool_decide_true | now rewrite bool_decide_false].
Qed.

(** X14: the descriptor has a shielded instance configuration exactly when the
    specification has one.  Secure boot is on only for the enabled policy,
    the vTPM and integrity monitoring are off only for their disabled
    policies, each whatever the other two are; any other policy value leaves
    the default. *)
Theorem InstanceSpec_shielded m instance :
  returned (InstanceSpec m) = Some instance ->
  (compute.Instance.ShieldedInstanceConfig instance = None
   <-> ShieldedInstanceConfig (Spec (GCPMachine m)) = None)
  /\ forall c,
       ShieldedInstanceConfig (Spec (GCPMachine m)) = Some c ->
       exists config,
         compute.Instance.ShieldedInstanceConfig instance = Some config
         /\ (compute.ShieldedInstanceConfig.EnableSecureBoot config = true
             <-> infrav1.GCPShieldedInstanceConfig.SecureBoot c
                 = SecureBootPolicyEnabled)
         /\ (compute.ShieldedInstanceConfig.EnableVtpm config = false
             <-> infrav1.GCPShieldedInstanceConfig.VirtualizedTrustedPlatformModule c
                 = VirtualizedTrustedPlatformModulePolicyDisabled)
         /\ (compute.ShieldedInstanceConfig.EnableIntegrityMonitoring config
             = false
             <-> infrav1.GCPShieldedInstanceConfig.IntegrityMonitoring c
                 = IntegrityMonitoringPolicyDisabled).
Proof.
  intros Hret.
  destruct (InstanceSpec_around_returned_rest onHostMaintenance_block m
              instance onHostMaintenance_block_returned Hret)
    as (_ & _ & _ & -> & _).
  split.
  - destruct (ShieldedInstanceConfig (Spec (GCPMachine m))); easy.
  - intros c ->. eexists. split; [reflexivity|].
    unfold shieldedInstanceConfig_of.
    destruct (String.eqb_spec (infrav1.GCPShieldedInstanceConfig.SecureBoot c)
                SecureBootPolicyEnabled);
      destruct (String.eqb_spec
                  (infrav1.GCPShieldedInstanceConfig.VirtualizedTrustedPlatformModule c)
                  VirtualizedTrustedPlatformModulePolicyDisabled);
      destruct (String.eqb_spec
                  (infrav1.GCPShieldedInstanceConfig.IntegrityMonitoring c)
                  IntegrityMonitoringPolicyDisabled);
      cbn; repeat split; congruence.
Qed.

(** X15: the descriptor has exactly one service account, the one of the
    specification with its scopes as they are, or the account [default]
    with the cloud platform scope; and its metadata has one item for each
    additional metadata item of the specification, in their order, with the
    same key and value. *)
Theorem InstanceSpec_account_metadata m instance :
  returned (InstanceSpec m) = Some instance ->
  (exists account,
     compute.Instance.ServiceAccounts instance = [account]
     /\ match ServiceAccount (Spec (GCPMachine m)) with
        | Some sa =>
            compute.ServiceAccount.Email account
              = infrav1.ServiceAccount.Email sa
            /\ compute.ServiceAccount.Scopes account
               = infrav1.ServiceAccount.Scopes sa
        | None =>
            compute.ServiceAccount.Email account = "default"
            /\ compute.ServiceAccount.Scopes account = [CloudPlatformScope]
        end)
  /\ compute.Instance.Metadata instance
     = Some (compute.Metadata.mk
               (map (fun item =>
                       compute.MetadataItems.mk
                         (infrav1.MetadataItem.Key item)
                         (infrav1.MetadataItem.Value item))
                    (AdditionalMetadata (Spec (GCPMachine m))))).
Proof.
  intros Hret.
  destruct (InstanceSpec_around_returned_rest onHostMaintenance_block m
              instance onHostMaintenance_block_returned Hret)
    as (_ & _ & _ & _ & _ & -> & ->).
  split.
  - eexists. split; [reflexivity|]. unfold InstanceServiceAccountsSpec.
    destruct (ServiceAccount (Spec (GCPMachine m))); split; reflexivity.
  - unfold InstanceAdditionalMetadataSpec. now rewrite fold_append_map.
Qed.

(** X16: the descriptor has one network interface, the one the network interface
    builder returns, or none when that returns nil: never more than one. *)
Theorem InstanceSpec_network_interfaces m instance :
  returned (InstanceSpec m) = Some instance ->
  (length (compute.Instance.NetworkInterfaces instance) <= 1)%nat
  /\ (compute.Instance.NetworkInterfaces instance = []
      <-> snd (getInstanceAliasIpRanges m) <> None)
  /\ forall networkInterface,
       In networkInterface (compute.Instance.NetworkInterfaces instance) ->
       returned (InstanceNetworkInterfaceSpec m) = Some (Some networkInterface).
Proof.
  intros Hret.
  pose proof (InstanceSpec_around_returned onHostMaintenance_block m
                onHostMaintenance_block_returned) as Hfields.
  fold (InstanceSpec m) in Hfields. rewrite Hret in Hfields.
  destruct (returned (InstanceAdditionalDiskSpec m)); [|discriminate].
  destruct Hfields as (i & [= <-] & _ & _ & _ & _ & _ & ->).
  pose proof (InstanceNetworkInterfaceSpec_nil m) as Hnil.
  destruct (returned (InstanceNetworkInterfaceSpec m)) as [[ni|]|] eqn:Hni.
  - split; [cbn; lia|]. split.
    + split; [discriminate|]. intros Herr. apply Hnil in Herr. discriminate.
    + now intros ? [<-|[]].
  - split; [cbn; lia|]. split; [|now intros ? []].
    split; [|reflexivity]. intros _. now apply Hnil.
  - rewrite InstanceNetworkInterfaceSpec_returned in Hni. discriminate.
Qed.

(** X17: what [InstanceSpec] writes: the log entry for an unknown host
    maintenance policy and, unless the additional disks panic, the lines of
    the network interface builder. *)
Theorem InstanceSpec_written m :
  written (InstanceSpec m)
  = policy_log m
    ++ match returned (InstanceAdditionalDiskSpec m) with
       | Some _ => written (InstanceNetworkInterfaceSpec m)
       | None => []
       end.
Proof.
  unfold InstanceSpec, InstanceSpec_around, policy_log.
  rewrite written_bind.
  assert (Hblock : forall policy instance,
            written (onHostMaintenance_block policy instance)
            = if String.eqb policy HostMaintenancePolicyMigrate
                 || String.eqb policy HostMaintenancePolicyTerminate
              then []
              else [LogError "Invalid value" "Unknown OnHostMaintenance value"
                             "Spec.OnHostMaintenance" policy]).
  { intros policy instance. unfold onHostMaintenance_block.
    destruct (String.eqb policy HostMaintenancePolicyMigrate); [reflexivity|].
    destruct (String.eqb policy HostMaintenancePolicyTerminate); reflexivity. }
  destruct (OnHostMaintenance (Spec (GCPMachine m))) as [policy|].
  - rewrite Hblock, onHostMaintenance_block_returned. f_equal.
    rewrite written_bind.
    change (written (InstanceAdditionalDiskSpec m))
      with (written (additionalDisks_loop m (AdditionalDisks (Spec (GCPMachine m))) [])).
    rewrite additionalDisks_loop_written. cbn [app].
    destruct (returned (InstanceAdditionalDiskSpec m)); [|reflexivity].
    rewrite written_bind.
    destruct (returned (InstanceNetworkInterfaceSpec m)) as [[ni|]|];
      cbn [ret written fst]; now rewrite ?app_nil_r.
  - cbn [ret written returned fst snd app]. rewrite written_bind.
    change (written (InstanceAdditionalDiskSpec m))
      with (written (additionalDisks_loop m (AdditionalDisks (Spec (GCPMachine m))) [])).
    rewrite additionalDisks_loop_written. cbn [app].
    destruct (returned (InstanceAdditionalDiskSpec m)); [|reflexivity].
    rewrite written_bind.
    destruct (returned (InstanceNetworkInterfaceSpec m)) as [[ni|]|];
      cbn [ret written fst]; now rewrite ?app_nil_r.
Qed.

End DescriptorFields.

Section SubnetOnly.

Context `{Imports}.

(** ** What the subnet decides *)

Lemma additionalDisks_loop_with_Subnet subnet m disks additionalDisks :
  additionalDisks_loop (with_Subnet subnet m) disks additionalDisks
  = additionalDisks_loop m disks additionalDisks.
Proof.
  revert additionalDisks. induction disks as [|disk disks IH];
    intros additionalDisks; [reflexivity|].
  cbn [additionalDisks_loop].
  change (additionalDisk_of (with_Subnet subnet m) disk)
    with (additionalDisk_of m disk).
  destruct (additionalDisk_of m disk) as [w [d|]]; [|reflexivity].
  unfold bind. now rewrite IH.
Qed.

(** X18: the subnet of the specification decides the network interfaces of the
    descriptor and nothing else: with any other subnet, or none,
    [InstanceSpec] panics or returns alike, and the two descriptors differ
    in their network interfaces at most. *)
Theorem InstanceSpec_subnet_only_network m subnet :
  option_map (compute.Instance.with_NetworkInterfaces [])
             (returned (InstanceSpec (with_Subnet subnet m)))
  = option_map (compute.Instance.with_NetworkInterfaces [])
               (returned (InstanceSpec m)).
Proof.
  pose proof (InstanceSpec_around_returned onHostMaintenance_block m
                onHostMaintenance_block_returned) as Hm.
  pose proof (InstanceSpec_around_returned onHostMaintenance_block
                (with_Subnet subnet m) onHostMaintenance_block_returned) as Hm'.
  fold (InstanceSpec m) in Hm. fold (InstanceSpec (with_Subnet subnet m)) in Hm'.
  unfold InstanceAdditionalDiskSpec in Hm, Hm'.
  change (AdditionalDisks (Spec (GCPMachine (with_Subnet subnet m))))
    with (AdditionalDisks (Spec (GCPMachine m))) in Hm'.
  rewrite additionalDisks_loop_with_Subnet in Hm'.
  destruct (returned (additionalDisks_loop m _ [])) as [ds|].
  - destruct Hm as (i & Hi & Hname & Hzone & Htype & Hsched & Hdisks & _).
    destruct Hm' as (i' & Hi' & Hname' & Hzone' & Htype' & Hsched' & Hdisks' & _).
    destruct (InstanceSpec_around_returned_rest onHostMaintenance_block m i
                onHostMaintenance_block_returned Hi)
      as (Ht & Hl & Hf & Hs & Hc & Hmd & Hsa).
    destruct (InstanceSpec_around_returned_rest onHostMaintenance_block
                (with_Subnet subnet m) i' onHostMaintenance_block_returned Hi')
      as (Ht' & Hl' & Hf' & Hs' & Hc' & Hmd' & Hsa').
    rewrite Hi, Hi'. cbn [option_map]. f_equal.
    destruct i, i'.
    cbn [compute.Instance.Name compute.Instance.Zone
         compute.Instance.MachineType compute.Instance.Tags
         compute.Instance.Labels compute.Instance.Scheduling
         compute.Instance.CanIpForward compute.Instance.ShieldedInstanceConfig
         compute.Instance.ConfidentialInstanceConfig compute.Instance.Disks
         compute.Instance.Metadata compute.Instance.ServiceAccounts] in *.
    unfold compute.Instance.with_NetworkInterfaces.
    cbn [compute.Instance.Name compute.Instance.Zone
         compute.Instance.MachineType compute.Instance.Tags
         compute.Instance.Labels compute.Instance.Scheduling
         compute.Instance.CanIpForward compute.Instance.ShieldedInstanceConfig
         compute.Instance.ConfidentialInstanceConfig compute.Instance.Disks
         compute.Instance.Metadata compute.Instance.ServiceAccounts].
    subst. reflexivity.
  - now rewrite Hm, Hm'.
Qed.

End SubnetOnly.

(** ** Annotations, bootstrap data and the construction of the scope *)

(** X19: [SetAnnotation] leaves a map behind, also where there was none, in which
    the key has the value and every other key what it had before; the rest
    of the object is as it was. *)
Theorem SetAnnotation_lookup key value o :
  exists annotations,
    Object.Annotations (SetAnnotation key value o) = Some annotations
    /\ annotations !! key = Some value
    /\ (forall k,
          k <> key ->
          annotations !! k
          = match Object.Annotations o with
            | Some before => before !! k
            | None => None
            end)
    /\ Object.Namespace (SetAnnotation key value o) = Object.Namespace o
    /\ Object.DataSecretName (SetAnnotation key value o)
       = Object.DataSecretName o.
Proof.
  unfold SetAnnotation. eexists. split; [reflexivity|].
  split; [apply lookup_insert_eq|]. split; [|split; reflexivity].
  intros k Hk. rewrite lookup_insert_ne by congruence.
  destruct (Object.Annotations o); [reflexivity | apply lookup_empty].
Qed.

(** X20: setting a key twice keeps the second value, and setting two keys does
    not depend on the order. *)
Theorem SetAnnotation_twice key key' value value' o :
  SetAnnotation key value' (SetAnnotation key value o)
  = SetAnnotation key value' o
  /\ (key <> key' ->
      SetAnnotation key value (SetAnnotation key' value' o)
      = SetAnnotation key' value' (SetAnnotation key value o)).
Proof.
  unfold SetAnnotation. cbn [Object.Annotations Object.Namespace
                              Object.DataSecretName].
  split.
  - now rewrite insert_insert_eq.
  - intros Hne. now rewrite insert_insert_ne.
Qed.

(** X21: [GetBootstrapData] returns data, and no error, exactly when the machine
    names a data secret, the client finds it in the namespace of the GCP
    machine, and it has the key [value]: the data is what the secret has
    there.  With an error the data returned is empty. *)
Theorem GetBootstrapData_value client m o :
  (forall value,
     GetBootstrapData client m o = (value, None)
     <-> exists name secret,
           Object.DataSecretName o = Some name
           /\ client (Object.Namespace o) name = inl secret
           /\ Secret.Data secret !! "value" = Some value)
  /\ (forall value err,
        GetBootstrapData client m o = (value, Some err) -> value = "")
  /\ (forall name secret,
        Object.DataSecretName o = Some name ->
        client (Object.Namespace o) name = inl secret ->
        Secret.Data secret !! "value" = None ->
        GetBootstrapData client m o
        = ("", Some "error retrieving bootstrap data: secret value key is missing")).
Proof.
  unfold GetBootstrapData. split; [|split].
  - intros value. split.
    + destruct (Object.DataSecretName o) as [name|]; [|discriminate].
      destruct (client (Object.Namespace o) name) as [secret|err] eqn:Hget;
        [|discriminate].
      destruct (Secret.Data secret !! "value") as [v|] eqn:Hv; [|discriminate].
      intros [= <-]. eauto.
    + intros (name & secret & -> & -> & ->). reflexivity.
  - intros value err.
    destruct (Object.DataSecretName o) as [name|]; [|now intros [= <-]].
    destruct (client (Object.Namespace o) name) as [secret|e];
      [|now intros [= <-]].
    destruct (Secret.Data secret !! "value"); [discriminate | now intros [= <-]].
  - intros name secret -> -> ->. reflexivity.
Qed.

(** X22: [NewMachineScope] returns a scope or an error, never both and never
    neither.  It returns a scope exactly when client, machine and GCP
    machine are given and the patch helper can be made, and the scope holds
    them and the cluster of the parameters; the first of client, machine
    and GCP machine that is missing, in this order, is the one the error
    names. *)
Theorem NewMachineScope_required {Helper}
    (NewHelper : infrav1.GCPMachine.t -> Client -> Helper + string) params :
  let result := NewMachineScope Helper NewHelper params in
  (forall s,
     result = (Some s, None)
     <-> MachineScopeParams.Client params = Some (client Helper s)
         /\ MachineScopeParams.Machine params = Some (Machine (scope Helper s))
         /\ MachineScopeParams.GCPMachine params
            = Some (GCPMachine (scope Helper s))
         /\ MachineScopeParams.ClusterGetter params
            = ClusterGetter (scope Helper s)
         /\ NewHelper (GCPMachine (scope Helper s)) (client Helper s)
            = inl (patchHelper Helper s))
  /\ ((exists s, result = (Some s, None)) \/ (exists err, result = (None, Some err)))
  /\ (MachineScopeParams.Client params = None ->
      result = (None, Some "client is required when creating a MachineScope"))
  /\ (MachineScopeParams.Client params <> None ->
      MachineScopeParams.Machine params = None ->
      result = (None, Some "machine is required when creating a MachineScope"))
  /\ (MachineScopeParams.Client params <> None ->
      MachineScopeParams.Machine params <> None ->
      MachineScopeParams.GCPMachine params = None ->
      result
      = (None, Some "gcp machine is required when creating a MachineScope")).
Proof.
  intros result. subst result. unfold NewMachineScope.
  destruct (MachineScopeParams.Client params) as [c|];
    destruct (MachineScopeParams.Machine params) as [machine|];
    destruct (MachineScopeParams.GCPMachine params) as [gcpMachine|];
    try destruct (NewHelper gcpMachine c) as [helper|err] eqn:Hhelper;
    (split; [intros s; split;
               [try discriminate
               |try (intros ([=] & _); fail);
                try (intros (_ & [=] & _); fail);
                try (intros (_ & _ & [=] & _); fail)]
            |split; [eauto|repeat split; intros; congruence]]).
  - intros [= <-]. cbn. auto.
  - intros ([= ->] & [= ->] & [= ->] & Hc & Hh). destruct s as [[cg ma gm] cl ph].
    cbn in *. subst. rewrite Hhelper in Hh. now injection Hh as <-.
  - intros ([= ->] & [= ->] & [= ->] & Hc & Hh). congruence.
Qed.

(** ** The fields of the descriptor, on an example *)

Lemma InstanceSpec_tags_witness :
  exists instance,
    returned (@InstanceSpec upstream example_full_scope) = Some instance
    /\ exists role,
         (role = "control-plane"
          /\ @IsControlPlaneMachine upstream (Machine example_full_scope) = true
          \/ role = "node"
             /\ @IsControlPlaneMachine upstream (Machine example_full_scope)
                = false)
         /\ compute.Tags.Items (compute.Instance.Tags instance)
            = ["tag-a"; "tag-b"] ++ ["c1" +:+ "-" +:+ role; "c1"].
Proof.
  eexists. split; [vm_compute; reflexivity|].
  apply (@InstanceSpec_tags upstream example_full_scope).
  vm_compute. reflexivity.
Defined.

Lemma InstanceSpec_forwarding_confidential_witness :
  exists instance,
    returned (@InstanceSpec upstream example_full_scope) = Some instance
    /\ (compute.Instance.CanIpForward instance = false
        <-> Some "Disabled" = Some "Disabled")
    /\ (compute.Instance.ConfidentialInstanceConfig instance = None
        <-> Some "Enabled" = @None string)
    /\ forall policy,
         Some "Enabled" = Some policy ->
         compute.Instance.ConfidentialInstanceConfig instance
         = Some (compute.ConfidentialInstanceConfig.mk
                   (bool_decide (policy = "Enabled"))).
Proof.
  eexists. split; [vm_compute; reflexivity|].
  apply (@InstanceSpec_forwarding_confidential upstream example_full_scope).
  vm_compute. reflexivity.
Defined.

Lemma InstanceSpec_shielded_witness :
  exists instance,
    returned (@InstanceSpec upstream example_full_scope) = Some instance
    /\ forall c,
         Some (infrav1.GCPShieldedInstanceConfig.mk "Enabled" "Disabled" "Unknown")
         = Some c ->
         exists config,
           compute.Instance.ShieldedInstanceConfig instance = Some config
           /\ (compute.ShieldedInstanceConfig.EnableSecureBoot config = true
               <-> infrav1.GCPShieldedInstanceConfig.SecureBoot c = "Enabled")
           /\ (compute.ShieldedInstanceConfig.EnableVtpm config = false
               <-> infrav1.GCPShieldedInstanceConfig.VirtualizedTrustedPlatformModule c
                   = "Disabled")
           /\ (compute.ShieldedInstanceConfig.EnableIntegrityMonitoring config
               = false
               <-> infrav1.GCPShieldedInstanceConfig.IntegrityMonitoring c
                   = "Disabled").
Proof.
  eexists. split; [vm_compute; reflexivity|].
  apply (@InstanceSpec_shielded upstream example_full_scope).
  vm_compute. reflexivity.
Defined.

Lemma InstanceSpec_account_metadata_witness :
  exists instance,
    returned (@InstanceSpec upstream example_full_scope) = Some instance
    /\ compute.Instance.Metadata instance
       = Some (compute.Metadata.mk
                 [compute.MetadataItems.mk "k1" (Some "v1");
                  compute.MetadataItems.mk "k2" None]).
Proof.
  eexists. split; [vm_compute; reflexivity|].
  apply (@InstanceSpec_account_metadata upstream example_full_scope).
  vm_compute. reflexivity.
Defined.

Lemma InstanceSpec_network_interfaces_witness :
  exists instance,
    returned (@InstanceSpec upstream example_full_scope) = Some instance
    /\ (length (compute.Instance.NetworkInterfaces instance) <= 1)%nat.
Proof.
  eexists. split; [vm_compute; reflexivity|].
  apply (@InstanceSpec_network_interfaces upstream example_full_scope).
  vm_compute. reflexivity.
Defined.

(** The descriptor of the example: an unknown host maintenance policy is
    upper-cased and logged, the public IP gives the interface its access
    configuration, and the image of the specification is the source
    image. *)
Example full_descriptor_example :
  written (@InstanceSpec upstream example_full_scope)
  = [LogError "Invalid value" "Unknown OnHostMaintenance value"
              "Spec.OnHostMaintenance" "Restart";
     Printf ("#### InstanceNetworkInterfaceSpec networkInterface: "
             +:+ "projects/workload-proj/global/networks/default" +:+ LF);
     Printf ("#### InstanceNetworkInterfaceSpec subnet is set: "
             +:+ "regions/us-central1/subnetworks/my-subnet" +:+ LF)]
  /\ option_map
       (fun i =>
          (compute.Instance.Zone i,
           compute.Scheduling.OnHostMaintenance (compute.Instance.Scheduling i),
           compute.Instance.CanIpForward i,
           map (fun d => compute.AttachedDiskInitializeParams.SourceImage
                           (compute.AttachedDisk.InitializeParams d))
               (compute.Instance.Disks i),
           map compute.NetworkInterface.AccessConfigs
               (compute.Instance.NetworkInterfaces i)))
       (returned (@InstanceSpec upstream example_full_scope))
     = Some ("us-central1-f", "RESTART", false, ["my-image"],
             [[compute.AccessConfig.mk "ONE_TO_ONE_NAT" "External NAT"]]).
Proof. split; vm_compute; reflexivity. Qed.

(** ** An additional disk without a device type *)

(** C8 fails on the code: the device type of an additional disk is a
    pointer, as its size and the root device type are, and it alone is
    dereferenced unchecked.  For the specification below, whose first
    additional disk asks for 50 GB and names no device type,
    [InstanceAdditionalDiskSpec] panics, and [InstanceSpec] with it: no disk
    is built, neither the 50 GB disk nor the local SSD behind it. *)
Theorem InstanceAdditionalDiskSpec_untyped_disk_panics `{Imports} :
  let m := example_untyped_scope in
  AdditionalDisks (Spec (GCPMachine m))
  = [infrav1.AttachedDiskSpec.mk None (Some 50%Z);
     infrav1.AttachedDiskSpec.mk (Some "local-ssd") None]
  /\ InstanceAdditionalDiskSpec m = panic
  /\ returned (InstanceAdditionalDiskSpec m) = None
  /\ returned (InstanceSpec m) = None.
Proof.
  intros m. split; [reflexivity|].
  assert (Hpanic : InstanceAdditionalDiskSpec m = panic).
  { unfold InstanceAdditionalDiskSpec. subst m.
    cbn [example_untyped_scope GCPMachine Spec AdditionalDisks
         additionalDisks_loop].
    now rewrite additionalDisk_of_untyped. }
  split; [exact Hpanic|]. split; [now rewrite Hpanic|].
  apply InstanceSpec_returned_typed. intros Htyped.
  inversion Htyped as [|disk disks Hd _]; subst. now apply Hd.
Qed.
